(** * The comment feed of social-comment-box

    A shallow embedding of [src/components/comment-feed.tsx]: the comment
    store held by the [CommentFeed] component (comment list, composer form,
    submitting flag), its three event handlers, and the three derivations
    ([relativeTimeFromNow], [extractHashtags], [interactionsToday]).

    Conventions.
    - A JavaScript string is the list of its UTF-16 code units, so that
      [length], [slice] and the regular expressions count what the source
      counts.
    - A JavaScript number is an integer of [Z]: every number of the component
      is an integer far inside the range where doubles are exact.
    - [createdAt] is the instant in milliseconds since the epoch; the source
      stores its [toISOString] form and reads it back with [new Date(..)],
      which is the identity on instants.
    - [Date.now()] and [crypto.randomUUID()] are arguments of the functions
      that call them. *)

From Stdlib Require Import ZArith List Bool Lia String Ascii.
From Stdlib Require Import Sorted Permutation DecimalString.
Import ListNotations.
Open Scope Z_scope.

(** ** JavaScript primitives used by the component *)

Module JS.

Definition code_unit := N.
Definition jsstring := list code_unit.

(** An ASCII literal of the source as code units. *)
Definition lit (s : string) : jsstring :=
  map N_of_ascii (list_ascii_of_string s).

Fixpoint eqb (a b : jsstring) : bool :=
  match a, b with
  | [], [] => true
  | x :: a', y :: b' => N.eqb x y && eqb a' b'
  | _, _ => false
  end.

Definition jsstring_eq_dec (a b : jsstring) : {a = b} + {a <> b} :=
  list_eq_dec N.eq_dec a b.

Fixpoint takeWhile {A} (p : A -> bool) (l : list A) : list A :=
  match l with
  | [] => []
  | x :: l' => if p x then x :: takeWhile p l' else []
  end.

Fixpoint dropWhile {A} (p : A -> bool) (l : list A) : list A :=
  match l with
  | [] => []
  | x :: l' => if p x then dropWhile p l' else l
  end.

(** [s.length] *)
Definition length_ {A} (l : list A) : Z := Z.of_nat (List.length l).

(** [x.slice(b, e)] on strings and arrays, for integer [b] and [e]:
    negative indices count from the end, both are clamped to the length. *)
Definition slice {A} (b e : Z) (l : list A) : list A :=
  let len := length_ l in
  let from := if b <? 0 then Z.max (len + b) 0 else Z.min b len in
  let to := if e <? 0 then Z.max (len + e) 0 else Z.min e len in
  firstn (Z.to_nat (to - from)) (skipn (Z.to_nat from) l).

(** WhiteSpace and LineTerminator code units: what [trim] strips and what
    [\s] matches. *)
Definition isWhiteSpace (c : code_unit) : bool :=
  ((9 <=? c) && (c <=? 13) || (c =? 32) || (c =? 160) || (c =? 5760)
   || (8192 <=? c) && (c <=? 8202) || (c =? 8232) || (c =? 8233)
   || (c =? 8239) || (c =? 8287) || (c =? 12288) || (c =? 65279))%N.

Definition trimStart (s : jsstring) : jsstring := dropWhile isWhiteSpace s.
Definition trimEnd (s : jsstring) : jsstring := rev (dropWhile isWhiteSpace (rev s)).

(** [s.trim()] *)
Definition trim (s : jsstring) : jsstring := trimEnd (trimStart s).

(** [s.replace(/\s+/g, "")]: every run of white space is deleted. *)
Definition replace_whitespace (s : jsstring) : jsstring :=
  filter (fun c => negb (isWhiteSpace c)) s.

(** [s.startsWith(p)] *)
Fixpoint startsWith (p s : jsstring) : bool :=
  match p, s with
  | [], _ => true
  | x :: p', y :: s' => N.eqb x y && startsWith p' s'
  | _ :: _, [] => false
  end.

(** Truthiness of a string: [!s] is [true] exactly on the empty string. *)
Definition not_ (s : jsstring) : bool :=
  match s with [] => true | _ :: _ => false end.

Definition isUpper (c : code_unit) : bool := ((65 <=? c) && (c <=? 90))%N.
Definition isLower (c : code_unit) : bool := ((97 <=? c) && (c <=? 122))%N.
Definition isDigit (c : code_unit) : bool := ((48 <=? c) && (c <=? 57))%N.

(** [s.toLowerCase()] on strings of ASCII code units, the only strings the
    component lowers (matches of [hashtagRegex]): A-Z move to a-z, nothing
    else changes. *)
Definition lowerUnit (c : code_unit) : code_unit :=
  if isUpper c then (c + 32)%N else c.
Definition toLowerCase (s : jsstring) : jsstring := map lowerUnit s.

(** [`${n}`] for an integer [n] (below 1e21): decimal digits, with a sign
    when negative. *)
Definition Number_toString (n : Z) : jsstring :=
  lit (NilEmpty.string_of_int (Z.to_int n)).

(** [Math.floor(a / b)] for an integer [a] and a positive integer [b]. *)
Definition floor_div (a b : Z) : Z := a / b.

(** *** The regular expression [/#[a-z0-9_]+/gi]

    The class [[a-z0-9_]] under the [i] flag (without [u]) matches the ASCII
    letters of both cases, the digits and the underscore: canonicalisation
    never maps a code unit of 128 or more to an ASCII letter. *)
Definition hash : code_unit := 35%N.
Definition isTagChar (c : code_unit) : bool :=
  isLower c || isUpper c || isDigit c || (c =? 95)%N.

(** All matches of the global expression, left to right.  [skip] counts the
    code units still covered by the previous match (the distance to
    [lastIndex]); at a free position a match needs [#] and at least one
    class member after it, and it is greedy. *)
Fixpoint matchFrom (skip : nat) (s : jsstring) : list jsstring :=
  match s with
  | [] => []
  | c :: rest =>
      match skip with
      | S k => matchFrom k rest
      | O =>
          if (c =? hash)%N then
            match takeWhile isTagChar rest with
            | [] => matchFrom 0 rest
            | run => (c :: run) :: matchFrom (List.length run) rest
            end
          else matchFrom 0 rest
      end
  end.

(** [s.match(hashtagRegex)]: [null] when nothing matches. *)
Definition match_hashtagRegex (s : jsstring) : option (list jsstring) :=
  match matchFrom 0 s with
  | [] => None
  | ms => Some ms
  end.

(** *** [Map<string, number>], in insertion order *)
Definition Map := list (jsstring * Z).

Fixpoint Map_get (k : jsstring) (m : Map) : option Z :=
  match m with
  | [] => None
  | (k', v) :: m' => if eqb k' k then Some v else Map_get k m'
  end.

(** [m.set(k, v)]: an existing key keeps its place, a new key goes last. *)
Fixpoint Map_set (k : jsstring) (v : Z) (m : Map) : Map :=
  match m with
  | [] => [(k, v)]
  | (k', v') :: m' =>
      if eqb k' k then (k', v) :: m' else (k', v') :: Map_set k v m'
  end.

(** [Array.from(m.entries())] *)
Definition Map_entries (m : Map) : list (jsstring * Z) := m.

(** *** [Array.prototype.sort(cmp)]

    The sort is stable (ECMAScript 2019); for a consistent comparator the
    result does not depend on the algorithm.  Insertion from the right: an
    element goes before the first element it does not compare greater
    than, so equal elements keep their order. *)
Fixpoint sort_insert {A} (cmp : A -> A -> Z) (x : A) (l : list A) : list A :=
  match l with
  | [] => [x]
  | y :: l' => if cmp x y <=? 0 then x :: l else y :: sort_insert cmp x l'
  end.

Fixpoint sort {A} (cmp : A -> A -> Z) (l : list A) : list A :=
  match l with
  | [] => []
  | x :: l' => sort_insert cmp x (sort cmp l')
  end.

End JS.

Import JS.

(** ** Data model *)

Module Comment.
Record t := mk {
  id : jsstring;
  displayName : jsstring;
  username : jsstring;
  avatarColor : jsstring;
  content : jsstring;
  createdAt : Z;
  likes : Z;
  isLiked : option bool;   (* [isLiked?: boolean] *)
  replies : Z
}.
End Comment.

Module FormState.
Record t := mk {
  displayName : jsstring;
  username : jsstring;
  content : jsstring
}.
End FormState.

(** [keyof FormState] *)
Module Field.
Inductive t := displayName | username | content.
End Field.

Definition MAX_CHAR_COUNT : Z := 280.

(** The seed comments; [now1], [now2], [now3] are the three readings of
    [Date.now()] taken when the module is loaded. *)
Definition seedComments (now1 now2 now3 : Z) : list Comment.t :=
  [ Comment.mk (lit "c1") (lit "Ava Chen") (lit "@avacodes") (lit "bg-indigo-500")
      (lit "Shipping a small UI polish today " ++ [10024%N]
       ++ lit " Keeping micro-interactions smooth makes all the difference.")
      (now1 - 1000 * 60 * 60 * 2) 24 (Some false) 5;
    Comment.mk (lit "c2") (lit "Daniel Park") (lit "@dpark") (lit "bg-emerald-500")
      (lit "Loving how this community shares feedback constructively. Keep the #buildinpublic energy going!")
      (now2 - 1000 * 60 * 25) 12 (Some false) 2;
    Comment.mk (lit "c3") (lit "Sofia Morales") (lit "@soficode") (lit "bg-rose-500")
      (lit "Just wrapped the v2 prototype. Dark mode feels " ++ [55357%N; 56613%N]
       ++ lit " " ++ [8212%N]
       ++ lit " shipping screenshots later today. #design #ui")
      (now3 - 1000 * 60 * 6) 31 (Some false) 9 ].

Definition initialForm : FormState.t :=
  FormState.mk [] [] [].

(** The three [useState] cells of [CommentFeed]. *)
Record State := mkState {
  comments : list Comment.t;
  formState : FormState.t;
  isSubmitting : bool
}.

Definition initialState (now1 now2 now3 : Z) : State :=
  mkState (seedComments now1 now2 now3) initialForm false.

(** ** Derivations *)

(** [relativeTimeFromNow(isoDate)], with the reading [now] of [Date.now()]. *)
Definition relativeTimeFromNow (now : Z) (isoDate : Z) : jsstring :=
  let diffMs := now - isoDate in
  if diffMs <? 60000 then lit "just now" else
  let minutes := floor_div diffMs 60000 in
  if minutes <? 60 then Number_toString minutes ++ lit "m" else
  let hours := floor_div minutes 60 in
  if hours <? 24 then Number_toString hours ++ lit "h" else
  let days := floor_div hours 24 in
  if days <? 7 then Number_toString days ++ lit "d" else
  let weeks := floor_div days 7 in
  if weeks <? 5 then Number_toString weeks ++ lit "w" else
  let months := floor_div days 30 in
  if months <? 12 then Number_toString months ++ lit "mo" else
  let years := floor_div days 365 in
  Number_toString years ++ lit "y".

(** The body of [matches.forEach]: one more occurrence of the lowered tag. *)
Definition countTag (counts : Map) (tag : jsstring) : Map :=
  let lowered := toLowerCase tag in
  Map_set lowered
    (match Map_get lowered counts with Some n => n | None => 0 end + 1)
    counts.

(** The body of [comments.forEach]. *)
Definition countComment (counts : Map) (comment : Comment.t) : Map :=
  match match_hashtagRegex (Comment.content comment) with
  | None => counts
  | Some matches => fold_left countTag matches counts
  end.

(** An element [{ tag, count }] of the result of [extractHashtags]. *)
Record Topic := mkTopic { tag : jsstring; count : Z }.

(** The comparator [(a, b) => b[1] - a[1]]. *)
Definition byCountDesc (a b : jsstring * Z) : Z := snd b - snd a.

Definition extractHashtags (comments : list Comment.t) : list Topic :=
  let counts := fold_left countComment comments ([] : Map) in
  map (fun '(tag, count) => mkTopic tag count)
    (slice 0 4 (sort byCountDesc (Map_entries counts))).

(** [interactionsToday], the [reduce] over the comments. *)
Definition interactionsToday (comments : list Comment.t) : Z :=
  fold_left
    (fun total comment => total + Comment.likes comment + Comment.replies comment)
    comments 0.

(** ** Event handlers *)

Definition setField (field : Field.t) (v : jsstring) (prev : FormState.t)
  : FormState.t :=
  match field with
  | Field.displayName =>
      FormState.mk v (FormState.username prev) (FormState.content prev)
  | Field.username =>
      FormState.mk (FormState.displayName prev) v (FormState.content prev)
  | Field.content =>
      FormState.mk (FormState.displayName prev) (FormState.username prev) v
  end.

Definition handleFieldChange (field : Field.t) (value : jsstring) (st : State)
  : State :=
  mkState (comments st)
    (setField field
       (match field with
        | Field.username => replace_whitespace value
        | _ => value
        end)
       (formState st))
    (isSubmitting st).

(** The [onChange] handlers of the three form controls.  The text area cuts
    the value to [MAX_CHAR_COUNT] code units before it calls
    [handleFieldChange]. *)
Definition onChange_displayName (value : jsstring) : State -> State :=
  handleFieldChange Field.displayName value.
Definition onChange_username (value : jsstring) : State -> State :=
  handleFieldChange Field.username value.
Definition onChange_content (value : jsstring) : State -> State :=
  handleFieldChange Field.content (slice 0 MAX_CHAR_COUNT value).

(** The field-edit command the form sends for a control and its new value. *)
Definition editField (field : Field.t) (value : jsstring) : State -> State :=
  match field with
  | Field.displayName => onChange_displayName value
  | Field.username => onChange_username value
  | Field.content => onChange_content value
  end.

(** [handleSubmit]; [uuid] is the value of [crypto.randomUUID()] and [now]
    the instant of [new Date()].  The timer it starts is [submitTimer]. *)
Definition handleSubmit (uuid : jsstring) (now : Z) (st : State) : State :=
  let form := formState st in
  if not_ (trim (FormState.displayName form))
     || not_ (trim (FormState.username form)) then st
  else if not_ (trim (FormState.content form)) then st
  else
    let normalizedHandle :=
      if startsWith (lit "@") (FormState.username form)
      then FormState.username form
      else lit "@" ++ FormState.username form in
    let newComment :=
      Comment.mk uuid
        (trim (FormState.displayName form))
        normalizedHandle
        (lit "bg-sky-500")
        (trim (FormState.content form))
        now 0 (Some false) 0 in
    mkState (newComment :: comments st) initialForm true.

(** The callback of [setTimeout(.., 300)]. *)
Definition submitTimer (st : State) : State :=
  mkState (comments st) (formState st) false.

(** [!comment.isLiked]: a missing flag is falsy. *)
Definition notLiked (comment : Comment.t) : bool :=
  match Comment.isLiked comment with
  | Some b => negb b
  | None => true
  end.

(** The function mapped over the comments by [toggleLike]. *)
Definition toggleComment (commentId : jsstring) (comment : Comment.t)
  : Comment.t :=
  if negb (eqb (Comment.id comment) commentId) then comment
  else
    let nextLiked := notLiked comment in
    Comment.mk
      (Comment.id comment)
      (Comment.displayName comment)
      (Comment.username comment)
      (Comment.avatarColor comment)
      (Comment.content comment)
      (Comment.createdAt comment)
      (Comment.likes comment + (if nextLiked then 1 else -1))
      (Some nextLiked)
      (Comment.replies comment).

Definition toggleLike (commentId : jsstring) (st : State) : State :=
  mkState (map (toggleComment commentId) (comments st))
    (formState st) (isSubmitting st).

(** The [disabled] attribute of the submit button. *)
Definition submitDisabled (st : State) : bool :=
  let charCount := length_ (FormState.content (formState st)) in
  let charLeft := MAX_CHAR_COUNT - charCount in
  (charCount =? 0) || (charLeft <? 0) || isSubmitting st
  || not_ (trim (FormState.displayName (formState st)))
  || not_ (trim (FormState.username (formState st))).

(** ** The store as a transition system *)

Inductive Command :=
| EditField (field : Field.t) (value : jsstring)
| Submit (uuid : jsstring) (now : Z)
| ToggleLike (commentId : jsstring)
| TimerFired.

Definition run (st : State) (c : Command) : State :=
  match c with
  | EditField field value => editField field value st
  | Submit uuid now => handleSubmit uuid now st
  | ToggleLike commentId => toggleLike commentId st
  | TimerFired => submitTimer st
  end.

Definition runAll (st : State) (cs : list Command) : State :=
  fold_left run cs st.

(** The states the component can be in. *)
Inductive reachable : State -> Prop :=
| reach_init now1 now2 now3 : reachable (initialState now1 now2 now3)
| reach_step st c : reachable st -> reachable (run st c).

(** [comment.isLiked ? .. : ..], the flag as the page reads it. *)
Definition likedByViewer (comment : Comment.t) : bool :=
  match Comment.isLiked comment with
  | Some b => b
  | None => false
  end.

(** ** Vocabulary of the statements *)

(** Sum of a list of integers. *)
Definition sumZ (l : list Z) : Z := fold_right Z.add 0 l.

(** The relative label as the specification words it: thresholds on the
    elapsed time, months below 365 days, years from 365 days on. *)
Definition relativeLabel (timestamp now : Z) : jsstring :=
  let elapsed := now - timestamp in
  let days := elapsed / 86400000 in
  if elapsed <? 60000 then lit "just now"
  else if elapsed <? 3600000 then Number_toString (elapsed / 60000) ++ lit "m"
  else if elapsed <? 86400000 then Number_toString (elapsed / 3600000) ++ lit "h"
  else if days <? 7 then Number_toString days ++ lit "d"
  else if days <? 35 then Number_toString (days / 7) ++ lit "w"
  else if days <? 365 then Number_toString (days / 30) ++ lit "mo"
  else Number_toString (days / 365) ++ lit "y".

(** [s] begins with a hashtag: a [#] and a member of the class after it. *)
Definition beginsTag (s : jsstring) : Prop :=
  exists c rest, s = hash :: c :: rest /\ isTagChar c = true.

(** [s] contains a hashtag somewhere. *)
Definition containsHashtag (s : jsstring) : Prop :=
  exists pre suf, s = pre ++ suf /\ beginsTag suf.

Definition noTagCharAhead (s : jsstring) : Prop :=
  match s with
  | [] => True
  | c :: _ => isTagChar c = false
  end.

(** The tokens of a content, as the specification words them: each token is
    a [#] followed by one or more letters, digits or underscores, taken as
    long as possible, the leftmost first, and the scan goes on after it. *)
Inductive Tokens : jsstring -> list jsstring -> Prop :=
| Tokens_none s :
    ~ containsHashtag s -> Tokens s []
| Tokens_next pre run post ms :
    ~ containsHashtag pre ->
    run <> [] ->
    Forall (fun c => isTagChar c = true) run ->
    noTagCharAhead post ->
    Tokens post ms ->
    Tokens (pre ++ hash :: run ++ post) ((hash :: run) :: ms).

(** A lowered tag: [#] and one or more of a-z, 0-9, underscore. *)
Definition loweredTag (t : jsstring) : Prop :=
  exists run,
    t = hash :: run /\ run <> []
    /\ Forall (fun c => (isLower c || isDigit c || (c =? 95)%N) = true) run.

(** The lowered matches of all the comments, in the order of the scan. *)
Definition scannedTags (cs : list Comment.t) : list jsstring :=
  flat_map (fun c => map toLowerCase (matchFrom 0 (Comment.content c))) cs.

(** How often a tag occurs in the scan. *)
Definition occurrences (t : jsstring) (tags : list jsstring) : Z :=
  Z.of_nat (count_occ jsstring_eq_dec tags t).

(** The distinct tags of the scan, each where it is met first. *)
Fixpoint firstSeen (tags : list jsstring) : list jsstring :=
  match tags with
  | [] => []
  | t :: tags' => t :: filter (fun u => negb (eqb t u)) (firstSeen tags')
  end.

(** Each distinct tag with its number of occurrences, in first-met order. *)
Definition tally (tags : list jsstring) : list (jsstring * Z) :=
  map (fun t => (t, occurrences t tags)) (firstSeen tags).

(** A comment with a given content, for the examples. *)
Definition commentOf (content : jsstring) : Comment.t :=
  Comment.mk [] [] [] [] content 0 0 (Some false) 0.

(** Higher counts first. *)
Definition countDesc (a b : jsstring * Z) : Prop := snd b <= snd a.

(** The entries with a given count, in the order they have in the list. *)
Definition withCount (n : Z) (l : list (jsstring * Z)) : list (jsstring * Z) :=
  filter (fun e => snd e =? n) l.

(** A comment is consistent when its flag is present, its count is not
    negative and a liked comment has at least the viewer's like. *)
Definition consistent (c : Comment.t) : Prop :=
  0 <= Comment.likes c
  /\ Comment.isLiked c <> None
  /\ (Comment.isLiked c = Some true -> 1 <= Comment.likes c).

(** One more occurrence of an already lowered tag. *)
Definition bump (counts : Map) (t : jsstring) : Map :=
  Map_set t (match Map_get t counts with Some n => n | None => 0 end + 1) counts.

(** [charCount] and [charLeft] of [CommentFeed]. *)
Definition charCount (st : State) : Z :=
  length_ (FormState.content (formState st)).
Definition charLeft (st : State) : Z := MAX_CHAR_COUNT - charCount st.

(** A string without any white space code unit. *)
Definition noWhiteSpace (s : jsstring) : Prop :=
  Forall (fun c => isWhiteSpace c = false) s.

(** The draft as the handlers keep it. *)
Definition draftOk (form : FormState.t) : Prop :=
  length_ (FormState.content form) <= MAX_CHAR_COUNT
  /\ noWhiteSpace (FormState.username form).

(** A comment as the component shows it: handle with [@] in front and no
    white space, display name and content non-empty and trimmed, content of
    at most [MAX_CHAR_COUNT] code units. *)
Definition commentOk (c : Comment.t) : Prop :=
  startsWith (lit "@") (Comment.username c) = true
  /\ noWhiteSpace (Comment.username c)
  /\ Comment.displayName c <> []
  /\ trim (Comment.displayName c) = Comment.displayName c
  /\ Comment.content c <> []
  /\ trim (Comment.content c) = Comment.content c
  /\ length_ (Comment.content c) <= MAX_CHAR_COUNT.

(** The fields of a comment that no handler writes after creation. *)
Definition frozen (c : Comment.t)
  : jsstring * jsstring * jsstring * jsstring * jsstring * Z * Z :=
  (Comment.id c, Comment.displayName c, Comment.username c,
   Comment.avatarColor c, Comment.content c, Comment.createdAt c,
   Comment.replies c).

Definition isSubmit (cmd : Command) : bool :=
  match cmd with Submit _ _ => true | _ => false end.

(** What one toggle of [commentId] adds to the like count of a comment. *)
Definition likeDelta (commentId : jsstring) (c : Comment.t) : Z :=
  if eqb (Comment.id c) commentId
  then (if notLiked c then 1 else -1)
  else 0.

(** ** Facts about the primitives *)

Lemma eqb_eq (a b : jsstring) : eqb a b = true <-> a = b.
Proof.
  revert b; induction a as [|x a IH]; intros [|y b]; simpl; split;
    try congruence; try reflexivity.
  - intros H. apply andb_true_iff in H as [Hx Hab].
    apply N.eqb_eq in Hx. apply IH in Hab. congruence.
  - intros H. injection H as -> ->.
    rewrite N.eqb_refl. simpl. now apply IH.
Qed.

Lemma eqb_refl (a : jsstring) : eqb a a = true.
Proof. now apply eqb_eq. Qed.

Lemma eqb_sym (a b : jsstring) : eqb a b = eqb b a.
Proof.
  destruct (eqb a b) eqn:E, (eqb b a) eqn:E'; trivial.
  - apply eqb_eq in E. subst. now rewrite eqb_refl in E'.
  - apply eqb_eq in E'. subst. now rewrite eqb_refl in E.
Qed.

Lemma eqb_neq (a b : jsstring) : eqb a b = false <-> a <> b.
Proof.
  split.
  - intros H E. apply eqb_eq in E. congruence.
  - intros H. destruct (eqb a b) eqn:E; [|reflexivity].
    apply eqb_eq in E. contradiction.
Qed.


Lemma slice_from_0 {A} (n : Z) (l : list A) :
  0 <= n -> slice 0 n l = firstn (Z.to_nat n) l.
Proof.
  intros Hn. unfold slice, length_.
  replace (0 <? 0) with false by reflexivity.
  replace (n <? 0) with false by (symmetry; apply Z.ltb_ge; lia).
  rewrite (Z.min_l 0) by lia. simpl skipn. rewrite Z.sub_0_r.
  destruct (Z.le_gt_cases n (Z.of_nat (List.length l))) as [Hle|Hgt].
  - now rewrite Z.min_l by lia.
  - rewrite Z.min_r by lia. rewrite Nat2Z.id.
    rewrite (firstn_all2 (n := List.length l)) by lia.
    rewrite (firstn_all2 (n := Z.to_nat n)) by lia. reflexivity.
Qed.

Lemma not_false_iff (s : jsstring) : not_ s = false <-> s <> [].
Proof. destruct s; simpl; split; congruence. Qed.

Lemma not_true_iff (s : jsstring) : not_ s = true <-> s = [].
Proof. destruct s; simpl; split; congruence. Qed.

(** ** The composer: [editField] and [handleSubmit] *)

Lemma handleFieldChange_content_stores (value : jsstring) (st : State) :
  FormState.content (formState (handleFieldChange Field.content value st))
  = value.
Proof. reflexivity. Qed.

(** [handleFieldChange] on its own stores a content of any length. *)
Lemma handleFieldChange_content_no_cap :
  length_
    (FormState.content
       (formState
          (handleFieldChange Field.content (repeat 97%N 300)
             (initialState 0 0 0)))) = 300.
Proof. reflexivity. Qed.

(** C1. After the field-edit command for the content control with any value
    [s], the stored draft content is the first 280 code units of [s]: its
    length is at most [MAX_CHAR_COUNT] = 280, it is [s] itself when [s] is
    that short, and the other two draft fields, the comments and the flag
    are as before. *)
Theorem editField_content_at_most_280 (s : jsstring) (st : State) :
  let st' := editField Field.content s st in
  length_ (FormState.content (formState st')) <= MAX_CHAR_COUNT
  /\ MAX_CHAR_COUNT = 280
  /\ FormState.content (formState st') = firstn 280 s
  /\ FormState.displayName (formState st') = FormState.displayName (formState st)
  /\ FormState.username (formState st') = FormState.username (formState st)
  /\ comments st' = comments st
  /\ isSubmitting st' = isSubmitting st.
Proof.
  cbv zeta. unfold editField, onChange_content.
  rewrite handleFieldChange_content_stores.
  rewrite slice_from_0 by (unfold MAX_CHAR_COUNT; lia).
  unfold MAX_CHAR_COUNT, length_.
  change (Z.to_nat 280) with 280%nat.
  repeat split.
  pose proof (firstn_le_length 280 s). lia.
Qed.

Lemma startsWith_at_cons (s : jsstring) : startsWith (lit "@") (lit "@" ++ s) = true.
Proof. reflexivity. Qed.

Lemma startsWith_at_inv (s : jsstring) :
  startsWith (lit "@") s = true -> exists s', s = lit "@" ++ s'.
Proof.
  change (lit "@") with [64%N].
  destruct s as [|c s]; cbn [startsWith]; [discriminate|].
  intros H. apply andb_true_iff in H as [H _].
  apply N.eqb_eq in H. subst c. now exists s.
Qed.

(** C3. When the three draft fields are non-empty after trimming,
    [handleSubmit] puts exactly one new comment in front of the old ones: its
    handle starts with [@] (the draft handle, with [@] put in front unless it
    is there already), its display name and content are the trimmed draft
    values, it has 0 likes, is not liked, has 0 replies, carries the fresh id
    and the current instant; the draft is reset to three empty fields. *)
Theorem handleSubmit_valid_prepends (uuid : jsstring) (now : Z) (st : State) :
  trim (FormState.displayName (formState st)) <> [] ->
  trim (FormState.username (formState st)) <> [] ->
  trim (FormState.content (formState st)) <> [] ->
  let st' := handleSubmit uuid now st in
  exists c,
    comments st' = c :: comments st
    /\ List.length (comments st') = S (List.length (comments st))
    /\ startsWith (lit "@") (Comment.username c) = true
    /\ Comment.username c =
         (if startsWith (lit "@") (FormState.username (formState st))
          then FormState.username (formState st)
          else lit "@" ++ FormState.username (formState st))
    /\ Comment.displayName c = trim (FormState.displayName (formState st))
    /\ Comment.content c = trim (FormState.content (formState st))
    /\ Comment.likes c = 0
    /\ Comment.isLiked c = Some false
    /\ Comment.replies c = 0
    /\ Comment.id c = uuid
    /\ Comment.createdAt c = now
    /\ formState st' = FormState.mk [] [] [].
Proof.
  intros Hd Hu Hc. cbv zeta. unfold handleSubmit.
  apply not_false_iff in Hd, Hu, Hc. rewrite Hd, Hu, Hc. simpl orb. cbv iota.
  eexists. split; [reflexivity|]. split; [reflexivity|].
  split; [|repeat split].
  cbn [Comment.username].
  destruct (startsWith (lit "@") (FormState.username (formState st))) eqn:E;
    [exact E | apply startsWith_at_cons].
Qed.

Lemma handleSubmit_valid_prepends_witness :
  let st :=
    mkState (seedComments 0 0 0)
      (FormState.mk (lit " Jo ") (lit "jo") (lit "hi #rocq ")) false in
  exists c,
    comments (handleSubmit (lit "u1") 7 st) = c :: comments st
    /\ Comment.username c = lit "@jo"
    /\ Comment.displayName c = lit "Jo"
    /\ Comment.content c = lit "hi #rocq".
Proof.
  cbv zeta.
  destruct (handleSubmit_valid_prepends (lit "u1") 7
              (mkState (seedComments 0 0 0)
                 (FormState.mk (lit " Jo ") (lit "jo") (lit "hi #rocq ")) false))
    as (c & H1 & _ & _ & H4 & H5 & H6 & _);
    [vm_compute; discriminate ..|].
  exists c. repeat split; assumption.
Defined.

(** C4. When the content, the display name or the handle of the draft is
    empty after trimming, [handleSubmit] returns the state it was given: the
    comments (elements, order, length), the draft and the flag are the
    same, and the function has no other outcome. *)
Theorem handleSubmit_invalid_noop (uuid : jsstring) (now : Z) (st : State) :
  trim (FormState.content (formState st)) = []
  \/ trim (FormState.displayName (formState st)) = []
  \/ trim (FormState.username (formState st)) = [] ->
  handleSubmit uuid now st = st
  /\ comments (handleSubmit uuid now st) = comments st
  /\ List.length (comments (handleSubmit uuid now st))
     = List.length (comments st).
Proof.
  intros H.
  assert (E : handleSubmit uuid now st = st).
  { unfold handleSubmit.
    destruct (not_ (trim (FormState.displayName (formState st)))) eqn:Ed;
      [reflexivity|].
    destruct (not_ (trim (FormState.username (formState st)))) eqn:Eu;
      [reflexivity|].
    destruct (not_ (trim (FormState.content (formState st)))) eqn:Ec;
      [reflexivity|].
    apply not_false_iff in Ed, Eu, Ec. tauto. }
  now rewrite E.
Qed.

Lemma handleSubmit_invalid_noop_witness :
  let st :=
    mkState (seedComments 0 0 0)
      (FormState.mk (lit "Jo") (lit "jo") (lit "   ")) false in
  handleSubmit (lit "u1") 7 st = st.
Proof.
  cbv zeta.
  apply (handleSubmit_invalid_noop (lit "u1") 7
           (mkState (seedComments 0 0 0)
              (FormState.mk (lit "Jo") (lit "jo") (lit "   ")) false)).
  left. reflexivity.
Defined.

(** ** [toggleLike] *)

Lemma toggleComment_other (commentId : jsstring) (c : Comment.t) :
  Comment.id c <> commentId -> toggleComment commentId c = c.
Proof.
  intros H. unfold toggleComment.
  apply eqb_neq in H. now rewrite H.
Qed.

Lemma toggleComment_same (c : Comment.t) :
  toggleComment (Comment.id c) c =
  Comment.mk (Comment.id c) (Comment.displayName c) (Comment.username c)
    (Comment.avatarColor c) (Comment.content c) (Comment.createdAt c)
    (Comment.likes c + (if notLiked c then 1 else -1))
    (Some (notLiked c)) (Comment.replies c).
Proof. unfold toggleComment. now rewrite eqb_refl. Qed.

Lemma toggleComment_id (commentId : jsstring) (c : Comment.t) :
  Comment.id (toggleComment commentId c) = Comment.id c.
Proof. unfold toggleComment. now destruct (negb _). Qed.

(** What one toggle leaves alone. *)
Lemma toggleComment_frame (commentId : jsstring) (c : Comment.t) :
  let c' := toggleComment commentId c in
  Comment.id c' = Comment.id c
  /\ Comment.displayName c' = Comment.displayName c
  /\ Comment.username c' = Comment.username c
  /\ Comment.avatarColor c' = Comment.avatarColor c
  /\ Comment.content c' = Comment.content c
  /\ Comment.createdAt c' = Comment.createdAt c
  /\ Comment.replies c' = Comment.replies c.
Proof. cbv zeta. unfold toggleComment. destruct (negb _); now simpl. Qed.

Lemma toggleComment_twice (commentId : jsstring) (c : Comment.t) :
  let c2 := toggleComment commentId (toggleComment commentId c) in
  Comment.likes c2 = Comment.likes c
  /\ likedByViewer c2 = likedByViewer c
  /\ (Comment.isLiked c <> None -> c2 = c).
Proof.
  cbv zeta. destruct (jsstring_eq_dec (Comment.id c) commentId) as [E|E].
  - subst commentId. rewrite toggleComment_same.
    set (c1 := Comment.mk _ _ _ _ _ _ _ _ _).
    change (Comment.id c) with (Comment.id c1). rewrite toggleComment_same.
    destruct c as [i d u a k t l [[|]|] r]; unfold likedByViewer, notLiked;
      simpl; repeat split; try lia; try congruence;
      intros _; f_equal; lia.
  - rewrite !(toggleComment_other commentId c E). now repeat split.
Qed.

Lemma nth_error_toggleLike (commentId : jsstring) (st : State) (i : nat) :
  nth_error (comments (toggleLike commentId st)) i
  = option_map (toggleComment commentId) (nth_error (comments st) i).
Proof. unfold toggleLike; simpl. apply nth_error_map. Qed.

(** C6. For a comment [c] at any position of the sequence, after
    [toggleLike] on its id twice in a row the comment at that position has
    the like count of [c] and is liked by the viewer exactly when [c] was;
    when the [isLiked] flag of [c] is present (as it is in every comment the
    component makes) the comment is [c] again, field by field. *)
Theorem toggleLike_twice_restores (st : State) (i : nat) (c : Comment.t) :
  nth_error (comments st) i = Some c ->
  let st2 := toggleLike (Comment.id c) (toggleLike (Comment.id c) st) in
  exists c2,
    nth_error (comments st2) i = Some c2
    /\ Comment.likes c2 = Comment.likes c
    /\ likedByViewer c2 = likedByViewer c
    /\ (Comment.isLiked c <> None ->
        c2 = c /\ Comment.isLiked c2 = Comment.isLiked c).
Proof.
  intros H. cbv zeta.
  rewrite !nth_error_toggleLike, H. simpl.
  eexists. split; [reflexivity|].
  destruct (toggleComment_twice (Comment.id c) c) as (Hl & Hv & Hc).
  split; [exact Hl|]. split; [exact Hv|].
  intros Hd. rewrite (Hc Hd). now split.
Qed.

Lemma toggleLike_twice_restores_witness :
  let st := initialState 0 0 0 in
  exists c c2,
    nth_error (comments st) 0 = Some c
    /\ Comment.id c = lit "c1"
    /\ nth_error (comments (toggleLike (lit "c1") (toggleLike (lit "c1") st))) 0
       = Some c2
    /\ Comment.likes c2 = 24
    /\ likedByViewer c2 = false.
Proof.
  cbv zeta.
  destruct (toggleLike_twice_restores (initialState 0 0 0) 0
              (Comment.mk (lit "c1") (lit "Ava Chen") (lit "@avacodes")
                 (lit "bg-indigo-500")
                 (lit "Shipping a small UI polish today " ++ [10024%N]
                  ++ lit " Keeping micro-interactions smooth makes all the difference.")
                 (0 - 1000 * 60 * 60 * 2) 24 (Some false) 5)
              eq_refl)
    as (c2 & H1 & H2 & H3 & _).
  eexists. exists c2. split; [reflexivity|]. split; [reflexivity|].
  split; [exact H1|]. split; [exact H2 | exact H3].
Defined.

(** The two toggles are not the identity each: the first one moves the
    count by one and flips the flag. *)
Lemma toggleComment_moves (c : Comment.t) :
  let c1 := toggleComment (Comment.id c) c in
  likedByViewer c1 = negb (likedByViewer c)
  /\ Comment.likes c1
     = Comment.likes c + (if likedByViewer c then -1 else 1).
Proof.
  cbv zeta. rewrite toggleComment_same.
  destruct c as [i d u a k t l [[|]|] r]; now simpl.
Qed.

(** C9. For an id that no comment of the sequence carries, [toggleLike]
    returns the state it was given: same comments with the same field
    values in the same order, same draft, same flag. *)
Theorem toggleLike_unknown_id_noop (commentId : jsstring) (st : State) :
  (forall c, In c (comments st) -> Comment.id c <> commentId) ->
  toggleLike commentId st = st
  /\ comments (toggleLike commentId st) = comments st
  /\ List.length (comments (toggleLike commentId st))
     = List.length (comments st).
Proof.
  intros H.
  assert (E : map (toggleComment commentId) (comments st) = comments st).
  { rewrite <- (map_id (comments st)) at 2.
    apply map_ext_in. intros c Hc. apply toggleComment_other. now apply H. }
  assert (E' : toggleLike commentId st = st).
  { unfold toggleLike. rewrite E. now destruct st. }
  now rewrite E'.
Qed.

Lemma toggleLike_unknown_id_noop_witness :
  toggleLike (lit "c9") (initialState 0 0 0) = initialState 0 0 0.
Proof.
  apply (toggleLike_unknown_id_noop (lit "c9") (initialState 0 0 0)).
  intros c Hc.
  simpl in Hc. destruct Hc as [<-|[<-|[<-|[]]]]; vm_compute; discriminate.
Defined.

(** C10. [toggleLike] leaves the draft and the submitting flag alone and
    keeps the length of the sequence; position by position, the comment
    keeps its id, display name, handle, avatar colour, content, creation
    time and reply count, and a comment whose id is not the toggled one is
    unchanged altogether. *)
Theorem toggleLike_frame (commentId : jsstring) (st : State) :
  let st' := toggleLike commentId st in
  formState st' = formState st
  /\ isSubmitting st' = isSubmitting st
  /\ List.length (comments st') = List.length (comments st)
  /\ forall i c,
       nth_error (comments st) i = Some c ->
       exists c',
         nth_error (comments st') i = Some c'
         /\ Comment.id c' = Comment.id c
         /\ Comment.displayName c' = Comment.displayName c
         /\ Comment.username c' = Comment.username c
         /\ Comment.avatarColor c' = Comment.avatarColor c
         /\ Comment.content c' = Comment.content c
         /\ Comment.createdAt c' = Comment.createdAt c
         /\ Comment.replies c' = Comment.replies c
         /\ (Comment.id c <> commentId -> c' = c).
Proof.
  cbv zeta. split; [reflexivity|]. split; [reflexivity|].
  split; [unfold toggleLike; simpl; apply length_map|].
  intros i c H. rewrite nth_error_toggleLike, H. simpl.
  eexists. split; [reflexivity|].
  destruct (toggleComment_frame commentId c) as (?&?&?&?&?&?&?).
  repeat split; trivial. apply toggleComment_other.
Qed.

Lemma toggleLike_frame_witness :
  let st := toggleLike (lit "c1") (initialState 0 0 0) in
  formState st = initialForm
  /\ isSubmitting st = false
  /\ List.length (comments st) = 3%nat.
Proof.
  cbv zeta.
  destruct (toggleLike_frame (lit "c1") (initialState 0 0 0))
    as (H1 & H2 & H3 & _).
  split; [exact H1|]. split; [exact H2 | exact H3].
Defined.

(** ** The like count never goes below zero *)

Lemma toggleComment_consistent (commentId : jsstring) (c : Comment.t) :
  consistent c -> consistent (toggleComment commentId c).
Proof.
  unfold consistent, toggleComment. intros (H0 & Hd & H1).
  destruct (negb _); [now repeat split|].
  destruct c as [i d u a k t l [[|]|] r]; unfold notLiked; simpl in *;
    repeat split; try congruence; try lia.
  specialize (H1 eq_refl). lia.
Qed.

Lemma seedComments_consistent (now1 now2 now3 : Z) :
  Forall consistent (seedComments now1 now2 now3).
Proof.
  unfold seedComments, consistent.
  repeat constructor; simpl; try lia; congruence.
Qed.

Lemma run_consistent (st : State) (cmd : Command) :
  Forall consistent (comments st) -> Forall consistent (comments (run st cmd)).
Proof.
  intros H. destruct cmd as [field value|uuid now|commentId|]; simpl.
  - now destruct field.
  - unfold handleSubmit.
    destruct (_ || _); [assumption|]. destruct (not_ _); [assumption|].
    simpl. constructor; [|assumption].
    unfold consistent; simpl. repeat split; try lia; congruence.
  - apply Forall_map. revert H. apply Forall_impl.
    intros c. apply toggleComment_consistent.
  - assumption.
Qed.

Lemma reachable_consistent (st : State) :
  reachable st -> Forall consistent (comments st).
Proof.
  induction 1 as [now1 now2 now3|st cmd _ IH].
  - apply seedComments_consistent.
  - now apply run_consistent.
Qed.

Lemma reachable_runAll (now1 now2 now3 : Z) (cmds : list Command) :
  reachable (runAll (initialState now1 now2 now3) cmds).
Proof.
  unfold runAll. generalize (reach_init now1 now2 now3).
  generalize (initialState now1 now2 now3) as st.
  induction cmds as [|c cmds IH]; intros st H; simpl; [assumption|].
  apply IH. now constructor.
Qed.

(** C7. In every state reached from the initial state (the three seed
    comments, an empty draft) by field edits, submissions, like toggles and
    the submit timer, in any number and order, the like count of every
    comment is at least 0.  The handlers hold no clamp: the count stays at
    or above 0 because a comment starts not liked with a count of 0 or more
    and every decrement undoes an earlier increment. *)
Theorem likes_never_negative (st : State) :
  reachable st ->
  Forall (fun c => 0 <= Comment.likes c) (comments st).
Proof.
  intros H. apply reachable_consistent in H.
  revert H. apply Forall_impl. intros c Hc. apply Hc.
Qed.

Lemma likes_never_negative_witness :
  let cmds :=
    [ ToggleLike (lit "c2");
      EditField Field.displayName (lit "Jo");
      EditField Field.username (lit "jo");
      EditField Field.content (lit "hello");
      Submit (lit "u1") 5; TimerFired;
      ToggleLike (lit "u1"); ToggleLike (lit "u1"); ToggleLike (lit "c2") ] in
  Forall (fun c => 0 <= Comment.likes c)
    (comments (runAll (initialState 0 0 0) cmds)).
Proof.
  cbv zeta.
  apply (likes_never_negative
           (runAll (initialState 0 0 0)
              [ ToggleLike (lit "c2");
                EditField Field.displayName (lit "Jo");
                EditField Field.username (lit "jo");
                EditField Field.content (lit "hello");
                Submit (lit "u1") 5; TimerFired;
                ToggleLike (lit "u1"); ToggleLike (lit "u1");
                ToggleLike (lit "c2") ])).
  apply reachable_runAll.
Defined.

(** X12. In a reachable state two toggles of one id give the whole state
    back: every comment, the draft and the flag. *)
Lemma toggleLike_twice_reachable (commentId : jsstring) (st : State) :
  reachable st -> toggleLike commentId (toggleLike commentId st) = st.
Proof.
  intros H. apply reachable_consistent in H.
  destruct st as [cs form flag]. unfold toggleLike; simpl in *.
  f_equal. rewrite map_map. rewrite <- (map_id cs) at 2.
  apply map_ext_in. intros c Hc.
  rewrite Forall_forall in H. destruct (H c Hc) as (_ & Hd & _).
  now apply (toggleComment_twice commentId c).
Qed.

(** Outside the reachable states nothing stops the count: a comment built
    liked with a count of 0 goes to -1. *)
Lemma toggleComment_no_clamp :
  Comment.likes
    (toggleComment (lit "x")
       (Comment.mk (lit "x") [] [] [] [] 0 0 (Some true) 0)) = -1.
Proof. reflexivity. Qed.

(** ** [interactionsToday] *)

Lemma interactionsToday_fold (cs : list Comment.t) (a : Z) :
  fold_left
    (fun total comment => total + Comment.likes comment + Comment.replies comment)
    cs a
  = a + sumZ (map (fun c => Comment.likes c + Comment.replies c) cs).
Proof.
  revert a. induction cs as [|c cs IH]; intros a; simpl.
  - unfold sumZ; simpl; lia.
  - rewrite IH. unfold sumZ; simpl. lia.
Qed.

(** C8. [interactionsToday] is the sum of likes plus replies over the whole
    sequence.  On the seed comments (likes 24, 12, 31; replies 5, 2, 9) it
    is 83; after [toggleLike] on the first seed comment it is 84; after a
    second [toggleLike] on that comment it is 83 again. *)
Theorem interactionsToday_total :
  (forall cs,
     interactionsToday cs
     = sumZ (map (fun c => Comment.likes c + Comment.replies c) cs))
  /\ forall now1 now2 now3,
       let st0 := initialState now1 now2 now3 in
       let st1 := toggleLike (lit "c1") st0 in
       let st2 := toggleLike (lit "c1") st1 in
       map Comment.likes (comments st0) = [24; 12; 31]
       /\ map Comment.replies (comments st0) = [5; 2; 9]
       /\ option_map Comment.id (hd_error (comments st0)) = Some (lit "c1")
       /\ interactionsToday (comments st0) = 83
       /\ interactionsToday (comments st1) = 84
       /\ interactionsToday (comments st2) = 83.
Proof.
  split.
  - intros cs. unfold interactionsToday. rewrite interactionsToday_fold. lia.
  - intros now1 now2 now3. cbv zeta. repeat split.
Qed.

(** ** [relativeTimeFromNow] *)

(** Decide every threshold test of the goal, close the branch the
    hypotheses select and refute the others by arithmetic. *)
Ltac by_thresholds :=
  repeat match goal with
    | |- context [?a <? ?b] => destruct (Z.ltb_spec a b)
    end;
  try reflexivity; exfalso; Z.div_mod_to_equations; lia.

Section RelativeTime.

Variables now isoDate : Z.
Let d := now - isoDate.
Let days := d / 86400000.

Lemma minutes_hours_days :
  d / 60000 / 60 = d / 3600000 /\ d / 60000 / 60 / 24 = days.
Proof.
  unfold days. rewrite !Z.div_div by lia. now split.
Qed.

(** The label by ranges of the elapsed time, as the code computes it: the
    month label ends where the month count reaches 12, at 360 days. *)
Lemma relativeTimeFromNow_cases :
  (d < 60000 -> relativeTimeFromNow now isoDate = lit "just now")
  /\ (60000 <= d < 3600000 ->
      relativeTimeFromNow now isoDate = Number_toString (d / 60000) ++ lit "m")
  /\ (3600000 <= d < 86400000 ->
      relativeTimeFromNow now isoDate = Number_toString (d / 3600000) ++ lit "h")
  /\ (1 <= days < 7 ->
      relativeTimeFromNow now isoDate = Number_toString days ++ lit "d")
  /\ (7 <= days < 35 ->
      relativeTimeFromNow now isoDate = Number_toString (days / 7) ++ lit "w")
  /\ (35 <= days < 360 ->
      relativeTimeFromNow now isoDate = Number_toString (days / 30) ++ lit "mo")
  /\ (360 <= days ->
      relativeTimeFromNow now isoDate = Number_toString (days / 365) ++ lit "y").
Proof.
  destruct minutes_hours_days as [Eh Ed].
  unfold relativeTimeFromNow, floor_div. fold d. rewrite Ed, Eh.
  unfold days in *.
  repeat split; intros H;
    by_thresholds.
Qed.

(** Where the code and the specified label agree. *)
Lemma relativeTimeFromNow_agrees :
  days < 360 \/ 365 <= days ->
  relativeTimeFromNow now isoDate = relativeLabel isoDate now.
Proof.
  intros H.
  destruct minutes_hours_days as [Eh Ed].
  unfold relativeTimeFromNow, relativeLabel, floor_div. fold d. rewrite Ed, Eh.
  fold days. unfold days in *.
  by_thresholds.
Qed.

(** From 360 to 364 days the code has left the months and prints 0 years,
    where the specified label is 12 months. *)
Lemma relativeTimeFromNow_gap :
  360 <= days < 365 ->
  relativeTimeFromNow now isoDate = lit "0y"
  /\ relativeLabel isoDate now = lit "12mo".
Proof.
  intros H.
  destruct relativeTimeFromNow_cases as (_ & _ & _ & _ & _ & _ & Hy).
  rewrite Hy by lia.
  unfold relativeLabel. fold d. fold days.
  replace (days / 365) with 0 by (Z.div_mod_to_equations; lia).
  replace (days / 30) with 12 by (Z.div_mod_to_equations; lia).
  unfold days in *.
  split; by_thresholds.
Qed.

End RelativeTime.

(** The four labels the specification lists: 59 seconds, 60 seconds,
    90 minutes and 8 days after the timestamp. *)
Lemma relativeTimeFromNow_examples (t : Z) :
  relativeTimeFromNow (t + 59 * 1000) t = lit "just now"
  /\ relativeTimeFromNow (t + 60 * 1000) t = lit "1m"
  /\ relativeTimeFromNow (t + 90 * 60 * 1000) t = lit "1h"
  /\ relativeTimeFromNow (t + 8 * 24 * 60 * 60 * 1000) t = lit "1w".
Proof.
  unfold relativeTimeFromNow.
  replace (t + 59 * 1000 - t) with 59000 by lia.
  replace (t + 60 * 1000 - t) with 60000 by lia.
  replace (t + 90 * 60 * 1000 - t) with 5400000 by lia.
  replace (t + 8 * 24 * 60 * 60 * 1000 - t) with 691200000 by lia.
  repeat split.
Qed.

(** C2, at 360 days after the timestamp: the month count is 12, the code
    leaves the month branch and returns 0 years, where the claim's label
    for less than 365 days is 12 months. *)
Theorem relativeTimeFromNow_360_days (t : Z) :
  relativeTimeFromNow (t + 360 * 86400000) t = lit "0y"
  /\ relativeLabel t (t + 360 * 86400000) = lit "12mo"
  /\ relativeTimeFromNow (t + 360 * 86400000) t
     <> relativeLabel t (t + 360 * 86400000).
Proof.
  unfold relativeTimeFromNow, relativeLabel.
  replace (t + 360 * 86400000 - t) with 31104000000 by lia.
  repeat split. vm_compute. discriminate.
Qed.

(** ** The hashtag expression *)

Lemma takeWhile_dropWhile {A} (p : A -> bool) (l : list A) :
  takeWhile p l ++ dropWhile p l = l.
Proof.
  induction l as [|x l IH]; simpl; [reflexivity|].
  destruct (p x); simpl; [now rewrite IH | reflexivity].
Qed.

Lemma takeWhile_Forall {A} (p : A -> bool) (l : list A) :
  Forall (fun x => p x = true) (takeWhile p l).
Proof.
  induction l as [|x l IH]; simpl; [constructor|].
  destruct (p x) eqn:E; constructor; assumption.
Qed.

Lemma dropWhile_length {A} (p : A -> bool) (l : list A) :
  (List.length (dropWhile p l) <= List.length l)%nat.
Proof.
  induction l as [|x l IH]; simpl; [lia|].
  destruct (p x); simpl; lia.
Qed.

Lemma takeWhile_app_stop (run post : jsstring) :
  Forall (fun c => isTagChar c = true) run ->
  noTagCharAhead post ->
  takeWhile isTagChar (run ++ post) = run
  /\ dropWhile isTagChar (run ++ post) = post.
Proof.
  intros Hrun Hpost. induction Hrun as [|c run Hc _ IH]; simpl.
  - destruct post as [|c post]; simpl in *; [now split|].
    now rewrite Hpost.
  - rewrite Hc. destruct IH as [-> ->]. now split.
Qed.

Lemma dropWhile_noTagCharAhead (s : jsstring) :
  noTagCharAhead (dropWhile isTagChar s).
Proof.
  induction s as [|c s IH]; simpl; [exact I|].
  destruct (isTagChar c) eqn:E; simpl; assumption.
Qed.

Lemma matchFrom_skip (run rest : jsstring) :
  matchFrom (List.length run) (run ++ rest) = matchFrom 0 rest.
Proof. induction run as [|c run IH]; simpl; trivial. Qed.

(** The unfolding of the scan at a free position. *)
Lemma matchFrom_cons (c : code_unit) (rest : jsstring) :
  matchFrom 0 (c :: rest) =
  if (c =? hash)%N then
    match takeWhile isTagChar rest with
    | [] => matchFrom 0 rest
    | run => (c :: run) :: matchFrom 0 (dropWhile isTagChar rest)
    end
  else matchFrom 0 rest.
Proof.
  cbn [matchFrom]. destruct (c =? hash)%N; [|reflexivity].
  destruct (takeWhile isTagChar rest) as [|r run] eqn:E; [reflexivity|].
  f_equal.
  rewrite <- (takeWhile_dropWhile isTagChar rest) at 1.
  rewrite E. apply matchFrom_skip.
Qed.

Lemma hash_not_tagChar : isTagChar hash = false.
Proof. reflexivity. Qed.

Lemma containsHashtag_nil : ~ containsHashtag [].
Proof.
  intros (pre & suf & E & c & rest & -> & _).
  destruct pre; discriminate.
Qed.

Lemma containsHashtag_cons (c : code_unit) (s : jsstring) :
  containsHashtag (c :: s) <-> beginsTag (c :: s) \/ containsHashtag s.
Proof.
  split.
  - intros ([|x pre] & suf & E & Hb).
    + left. simpl in E. now rewrite E.
    + right. injection E as -> ->. now exists pre, suf.
  - intros [Hb|(pre & suf & -> & Hb)].
    + now exists [], (c :: s).
    + now exists (c :: pre), suf.
Qed.

Lemma beginsTag_cons (c : code_unit) (s : jsstring) :
  beginsTag (c :: s) <->
  c = hash /\ takeWhile isTagChar s <> [].
Proof.
  split.
  - intros (c' & rest & E & Hc). injection E as -> ->.
    split; [reflexivity|]. simpl. now rewrite Hc.
  - intros [-> H]. destruct s as [|c' s]; simpl in H; [congruence|].
    destruct (isTagChar c') eqn:E; [|congruence].
    now exists c', s.
Qed.

Lemma matchFrom_step_skip (c : code_unit) (s : jsstring) :
  ~ beginsTag (c :: s) -> matchFrom 0 (c :: s) = matchFrom 0 s.
Proof.
  intros H. rewrite matchFrom_cons.
  destruct (N.eqb_spec c hash) as [->|]; [|reflexivity].
  destruct (takeWhile isTagChar s) eqn:E; [reflexivity|].
  exfalso. apply H, beginsTag_cons. split; congruence.
Qed.

Lemma Tokens_skip (c : code_unit) (s : jsstring) (ms : list jsstring) :
  ~ beginsTag (c :: s) -> Tokens s ms -> Tokens (c :: s) ms.
Proof.
  intros Hb H. destruct H as [s Hn|pre run post ms Hpre Hrun Hall Hpost H].
  - apply Tokens_none. rewrite containsHashtag_cons. tauto.
  - change (c :: pre ++ hash :: run ++ post)
      with ((c :: pre) ++ hash :: run ++ post).
    apply Tokens_next; trivial.
    rewrite containsHashtag_cons. intros [Hc|Hc]; [|contradiction].
    apply Hb. destruct Hc as (c' & rest & E & Hc').
    injection E as -> ->. now exists c', (rest ++ hash :: run ++ post).
Qed.

Lemma Tokens_matchFrom_bounded (n : nat) (s : jsstring) :
  (List.length s <= n)%nat -> Tokens s (matchFrom 0 s).
Proof.
  revert s. induction n as [|n IH]; intros [|c s] Hs; simpl in Hs;
    try (apply Tokens_none, containsHashtag_nil); [lia|].
  destruct (N.eqb_spec c hash) as [->|Hc].
  - destruct (takeWhile isTagChar s) as [|r run] eqn:E.
    + rewrite matchFrom_step_skip.
      * apply Tokens_skip; [|apply IH; lia].
        rewrite beginsTag_cons. intros [_ H]. congruence.
      * rewrite beginsTag_cons. intros [_ H]. congruence.
    + rewrite matchFrom_cons, N.eqb_refl, E.
      rewrite <- (takeWhile_dropWhile isTagChar s) at 1. rewrite E.
      apply (Tokens_next [] (r :: run)).
      * apply containsHashtag_nil.
      * discriminate.
      * rewrite <- E. apply takeWhile_Forall.
      * apply dropWhile_noTagCharAhead.
      * apply IH. pose proof (dropWhile_length isTagChar s). lia.
  - assert (Hb : ~ beginsTag (c :: s))
      by (rewrite beginsTag_cons; tauto).
    rewrite matchFrom_step_skip by exact Hb.
    apply Tokens_skip; [exact Hb | apply IH; lia].
Qed.

(** The scan produces the tokens of the content. *)
Lemma Tokens_matchFrom (s : jsstring) : Tokens s (matchFrom 0 s).
Proof. now apply (Tokens_matchFrom_bounded (List.length s)). Qed.

Lemma matchFrom_none (s : jsstring) :
  ~ containsHashtag s -> matchFrom 0 s = [].
Proof.
  induction s as [|c s IH]; intros H; [reflexivity|].
  rewrite containsHashtag_cons in H.
  rewrite matchFrom_step_skip by tauto. apply IH. tauto.
Qed.

Lemma matchFrom_prefix (pre x : jsstring) :
  ~ containsHashtag pre ->
  matchFrom 0 (pre ++ hash :: x) = matchFrom 0 (hash :: x).
Proof.
  induction pre as [|c pre IH]; intros H; [reflexivity|].
  rewrite containsHashtag_cons in H.
  change ((c :: pre) ++ hash :: x) with (c :: pre ++ hash :: x).
  rewrite matchFrom_step_skip; [apply IH; tauto|].
  intros (c' & rest & E & Hc'). injection E as Ec E. subst c.
  destruct pre as [|p pre]; simpl in E; injection E as Ec E; subst c'.
  - discriminate.
  - apply H. left. now exists p, pre.
Qed.

(** Only the scan's result is a token list of the content. *)
Lemma Tokens_unique (s : jsstring) (ms : list jsstring) :
  Tokens s ms -> matchFrom 0 s = ms.
Proof.
  induction 1 as [s Hn|pre run post ms Hpre Hrun Hall Hpost _ IH].
  - now apply matchFrom_none.
  - rewrite matchFrom_prefix by assumption.
    rewrite matchFrom_cons, N.eqb_refl.
    destruct (takeWhile_app_stop run post Hall Hpost) as [-> ->].
    destruct run; [congruence|]. now rewrite IH.
Qed.

Lemma matchFrom_nil_iff (s : jsstring) :
  matchFrom 0 s = [] <-> ~ containsHashtag s.
Proof.
  split; [|apply matchFrom_none].
  intros E. pose proof (Tokens_matchFrom s) as H. rewrite E in H.
  remember [] as ms eqn:Ems. destruct H; [assumption|discriminate].
Qed.

Lemma lowerUnit_tagChar (c : code_unit) :
  isTagChar c = true ->
  (isLower (lowerUnit c) || isDigit (lowerUnit c) || (lowerUnit c =? 95)%N)
  = true.
Proof.
  intros H. unfold lowerUnit. destruct (isUpper c) eqn:Eu.
  - unfold isUpper in Eu. apply andb_true_iff in Eu as [H1 H2].
    apply N.leb_le in H1, H2.
    assert (E : isLower (c + 32)%N = true).
    { unfold isLower. apply andb_true_iff. split; apply N.leb_le; lia. }
    now rewrite E.
  - unfold isTagChar in H. rewrite Eu in H.
    destruct (isLower c), (isDigit c), (c =? 95)%N; simpl in *; congruence.
Qed.

Lemma toLowerCase_token (run : jsstring) :
  run <> [] ->
  Forall (fun c => isTagChar c = true) run ->
  loweredTag (toLowerCase (hash :: run)).
Proof.
  intros Hne Hall. exists (map lowerUnit run). split; [reflexivity|].
  split; [destruct run; [congruence|discriminate]|].
  apply Forall_map. revert Hall. apply Forall_impl.
  intros c. apply lowerUnit_tagChar.
Qed.

Lemma Tokens_lowered (s : jsstring) (ms : list jsstring) :
  Tokens s ms -> Forall loweredTag (map toLowerCase ms).
Proof.
  induction 1; simpl; constructor; trivial.
  now apply toLowerCase_token.
Qed.

(** ** Counting the tags *)

Lemma fold_countTag (ms : list jsstring) (counts : Map) :
  fold_left countTag ms counts = fold_left bump (map toLowerCase ms) counts.
Proof.
  revert counts. induction ms as [|m ms IH]; intros counts; simpl; trivial.
Qed.

Lemma countComment_bump (counts : Map) (c : Comment.t) :
  countComment counts c
  = fold_left bump (map toLowerCase (matchFrom 0 (Comment.content c))) counts.
Proof.
  unfold countComment, match_hashtagRegex.
  destruct (matchFrom 0 (Comment.content c)) as [|m ms]; [reflexivity|].
  apply fold_countTag.
Qed.

Lemma fold_countComment (cs : list Comment.t) (counts : Map) :
  fold_left countComment cs counts = fold_left bump (scannedTags cs) counts.
Proof.
  revert counts. induction cs as [|c cs IH]; intros counts; simpl; trivial.
  rewrite fold_left_app, IH. now rewrite countComment_bump.
Qed.

Lemma filter_differs_In (t u : jsstring) (l : list jsstring) :
  In u (filter (fun v => negb (eqb t v)) l) <-> In u l /\ t <> u.
Proof.
  rewrite filter_In, negb_true_iff, eqb_neq. tauto.
Qed.

Lemma firstSeen_In (u : jsstring) (tags : list jsstring) :
  In u (firstSeen tags) <-> In u tags.
Proof.
  induction tags as [|t tags IH]; simpl; [tauto|].
  rewrite filter_differs_In, IH.
  destruct (jsstring_eq_dec t u); tauto.
Qed.

Lemma firstSeen_NoDup (tags : list jsstring) : NoDup (firstSeen tags).
Proof.
  induction tags as [|t tags IH]; simpl; constructor.
  - rewrite filter_differs_In. tauto.
  - now apply NoDup_filter.
Qed.

Lemma filter_twice {A} (p q : A -> bool) (l : list A) :
  filter p (filter q l) = filter (fun x => q x && p x) l.
Proof.
  induction l as [|x l IH]; simpl; [reflexivity|].
  destruct (q x); simpl; [|assumption].
  destruct (p x); now rewrite IH.
Qed.

(** The tags first met in [l1] come before the tags first met in [l2]. *)
Lemma firstSeen_app (l1 l2 : list jsstring) :
  firstSeen (l1 ++ l2)
  = firstSeen l1
    ++ filter (fun u => negb (existsb (eqb u) l1)) (firstSeen l2).
Proof.
  induction l1 as [|t l1 IH]; simpl.
  - symmetry. apply forallb_filter_id. now apply forallb_forall.
  - f_equal. rewrite IH, filter_app. f_equal.
    rewrite filter_twice. apply filter_ext. intros u.
    rewrite (eqb_sym u t).
    now destruct (eqb t u), (existsb (eqb u) l1).
Qed.

Lemma existsb_eqb_In (u : jsstring) (l : list jsstring) :
  existsb (eqb u) l = true <-> In u l.
Proof.
  rewrite existsb_exists. split.
  - intros (x & Hx & E). apply eqb_eq in E. now subst.
  - intros H. exists u. split; [assumption | apply eqb_refl].
Qed.

Lemma firstSeen_snoc_old (t : jsstring) (tags : list jsstring) :
  In t tags -> firstSeen (tags ++ [t]) = firstSeen tags.
Proof.
  intros H. rewrite firstSeen_app. simpl.
  apply existsb_eqb_In in H. rewrite H. simpl. apply app_nil_r.
Qed.

Lemma firstSeen_snoc_new (t : jsstring) (tags : list jsstring) :
  ~ In t tags -> firstSeen (tags ++ [t]) = firstSeen tags ++ [t].
Proof.
  intros H. rewrite firstSeen_app. simpl.
  destruct (existsb (eqb t) tags) eqn:E; [|reflexivity].
  apply existsb_eqb_In in E. contradiction.
Qed.

Lemma occurrences_snoc (u t : jsstring) (tags : list jsstring) :
  occurrences u (tags ++ [t])
  = occurrences u tags + (if jsstring_eq_dec t u then 1 else 0).
Proof.
  unfold occurrences. rewrite count_occ_app. simpl.
  destruct (jsstring_eq_dec t u); lia.
Qed.

Lemma occurrences_pos (t : jsstring) (tags : list jsstring) :
  In t tags <-> 1 <= occurrences t tags.
Proof.
  unfold occurrences. rewrite (count_occ_In jsstring_eq_dec). lia.
Qed.

Lemma Map_get_keyed (f : jsstring -> Z) (t : jsstring) (keys : list jsstring) :
  Map_get t (map (fun u => (u, f u)) keys)
  = if in_dec jsstring_eq_dec t keys then Some (f t) else None.
Proof.
  induction keys as [|k keys IH]; simpl; [reflexivity|].
  destruct (eqb k t) eqn:E.
  - apply eqb_eq in E. subst k.
    destruct (jsstring_eq_dec t t); [reflexivity|congruence].
  - apply eqb_neq in E. rewrite IH.
    destruct (jsstring_eq_dec k t); [contradiction|].
    now destruct (in_dec jsstring_eq_dec t keys).
Qed.

Lemma Map_set_keyed_new (f : jsstring -> Z) (t : jsstring) (v : Z)
  (keys : list jsstring) :
  ~ In t keys ->
  Map_set t v (map (fun u => (u, f u)) keys)
  = map (fun u => (u, f u)) keys ++ [(t, v)].
Proof.
  induction keys as [|k keys IH]; simpl; intros H; [reflexivity|].
  destruct (eqb k t) eqn:E.
  - apply eqb_eq in E. tauto.
  - rewrite IH by tauto. reflexivity.
Qed.

Lemma Map_set_keyed_old (f g : jsstring -> Z) (t : jsstring)
  (keys : list jsstring) :
  NoDup keys -> In t keys ->
  (forall u, u <> t -> g u = f u) ->
  Map_set t (g t) (map (fun u => (u, f u)) keys)
  = map (fun u => (u, g u)) keys.
Proof.
  intros Hnd Hin Hg. induction Hnd as [|k keys Hk Hnd IH]; simpl;
    [contradiction|].
  destruct (eqb k t) eqn:E.
  - apply eqb_eq in E. subst k. f_equal.
    apply map_ext_in. intros u Hu. rewrite Hg; [reflexivity|].
    intros ->. contradiction.
  - apply eqb_neq in E. destruct Hin as [|Hin]; [contradiction|].
    rewrite IH by assumption. now rewrite Hg by assumption.
Qed.

Lemma bump_tally (t : jsstring) (tags : list jsstring) :
  bump (tally tags) t = tally (tags ++ [t]).
Proof.
  unfold bump, tally. rewrite Map_get_keyed.
  destruct (in_dec jsstring_eq_dec t (firstSeen tags)) as [Hin|Hout].
  - rewrite firstSeen_snoc_old by (now apply firstSeen_In).
    replace (occurrences t tags + 1) with (occurrences t (tags ++ [t])).
    + apply (Map_set_keyed_old (fun u => occurrences u tags)
               (fun u => occurrences u (tags ++ [t])));
        [apply firstSeen_NoDup | assumption |].
      intros u Hu. rewrite occurrences_snoc.
      destruct (jsstring_eq_dec t u); [congruence | lia].
    + rewrite occurrences_snoc.
      destruct (jsstring_eq_dec t t); [reflexivity | congruence].
  - assert (Hnot : ~ In t tags) by (now rewrite <- firstSeen_In).
    rewrite firstSeen_snoc_new by assumption.
    rewrite Map_set_keyed_new by assumption.
    rewrite map_app. simpl. f_equal.
    + apply map_ext_in. intros u Hu. rewrite occurrences_snoc.
      destruct (jsstring_eq_dec t u) as [<-|]; [contradiction|].
      now rewrite Z.add_0_r.
    + rewrite occurrences_snoc.
      destruct (jsstring_eq_dec t t); [|congruence].
      assert (E0 : occurrences t tags = 0).
      { unfold occurrences.
        now rewrite (proj1 (count_occ_not_In jsstring_eq_dec tags t) Hnot). }
      now rewrite E0.
Qed.

(** The map built by the scan is the tally of the scanned tags. *)
Lemma fold_bump_tally (tags : list jsstring) :
  fold_left bump tags [] = tally tags.
Proof.
  induction tags as [|t tags IH] using rev_ind; [reflexivity|].
  rewrite fold_left_app. simpl. rewrite IH. apply bump_tally.
Qed.

Lemma counts_tally (cs : list Comment.t) :
  fold_left countComment cs [] = tally (scannedTags cs).
Proof. rewrite fold_countComment. apply fold_bump_tally. Qed.

Lemma tally_In (t : jsstring) (n : Z) (tags : list jsstring) :
  In (t, n) (tally tags) <-> In t tags /\ n = occurrences t tags.
Proof.
  unfold tally. rewrite in_map_iff. split.
  - intros (u & E & Hu). injection E as -> <-.
    now rewrite <- firstSeen_In.
  - intros [Ht ->]. exists t. now rewrite firstSeen_In.
Qed.

Lemma tally_NoDup (tags : list jsstring) : NoDup (map fst (tally tags)).
Proof.
  unfold tally. rewrite map_map. simpl. rewrite map_id.
  apply firstSeen_NoDup.
Qed.

(** ** The sort *)

Lemma sort_insert_perm {A} (cmp : A -> A -> Z) (x : A) (l : list A) :
  Permutation (sort_insert cmp x l) (x :: l).
Proof.
  induction l as [|y l IH]; simpl; [reflexivity|].
  destruct (cmp x y <=? 0); [reflexivity|].
  rewrite IH. apply perm_swap.
Qed.

Lemma sort_perm {A} (cmp : A -> A -> Z) (l : list A) :
  Permutation (sort cmp l) l.
Proof.
  induction l as [|x l IH]; simpl; [reflexivity|].
  rewrite sort_insert_perm. now constructor.
Qed.

Lemma sort_insert_sorted (x : jsstring * Z) (l : list (jsstring * Z)) :
  StronglySorted countDesc l ->
  StronglySorted countDesc (sort_insert byCountDesc x l).
Proof.
  induction 1 as [|y l Hs IH Hy]; simpl.
  - repeat constructor.
  - unfold byCountDesc at 1. destruct (Z.leb_spec (snd y - snd x) 0) as [Hle|Hgt].
    + constructor; [now constructor|].
      constructor; [unfold countDesc; lia|].
      revert Hy. apply Forall_impl. unfold countDesc. intros e He. lia.
    + constructor; [assumption|].
      rewrite (sort_insert_perm byCountDesc x l).
      constructor; [unfold countDesc; lia | assumption].
Qed.

Lemma sort_sorted (l : list (jsstring * Z)) :
  StronglySorted countDesc (sort byCountDesc l).
Proof.
  induction l as [|x l IH]; simpl; [constructor|].
  now apply sort_insert_sorted.
Qed.

(** Stability: entries of equal count keep the order they came in. *)
Lemma sort_insert_stable (n : Z) (x : jsstring * Z) (l : list (jsstring * Z)) :
  withCount n (sort_insert byCountDesc x l) = withCount n (x :: l).
Proof.
  unfold withCount. induction l as [|y l IH]; simpl; [reflexivity|].
  unfold byCountDesc at 1.
  destruct (Z.leb_spec (snd y - snd x) 0) as [Hle|Hgt]; [reflexivity|].
  simpl in *. rewrite IH.
  destruct (Z.eqb_spec (snd x) n), (Z.eqb_spec (snd y) n);
    try reflexivity; lia.
Qed.

Lemma sort_stable (n : Z) (l : list (jsstring * Z)) :
  withCount n (sort byCountDesc l) = withCount n l.
Proof.
  induction l as [|x l IH]; simpl; [reflexivity|].
  rewrite sort_insert_stable. unfold withCount in *. simpl. now rewrite IH.
Qed.

(** ** [extractHashtags] *)

Lemma extractHashtags_ranked (cs : list Comment.t) :
  extractHashtags cs
  = map (fun e => mkTopic (fst e) (snd e))
      (firstn 4 (sort byCountDesc (tally (scannedTags cs)))).
Proof.
  unfold extractHashtags, Map_entries. rewrite counts_tally.
  rewrite slice_from_0 by lia. change (Z.to_nat 4) with 4%nat.
  apply map_ext. now intros [t n].
Qed.

Lemma scannedTags_lowered (cs : list Comment.t) :
  Forall loweredTag (scannedTags cs).
Proof.
  unfold scannedTags. induction cs as [|c cs IH]; simpl; [constructor|].
  apply Forall_app. split; [|assumption].
  apply (Tokens_lowered (Comment.content c)), Tokens_matchFrom.
Qed.

Lemma scannedTags_nil_iff (cs : list Comment.t) :
  scannedTags cs = [] <->
  forall c, In c cs -> ~ containsHashtag (Comment.content c).
Proof.
  unfold scannedTags. induction cs as [|c cs IH]; simpl.
  - split; [intros _ c [] | reflexivity].
  - split.
    + intros E. apply app_eq_nil in E as [E1 E2].
      apply map_eq_nil in E1. apply matchFrom_nil_iff in E1.
      intros c' [<-|Hc']; [assumption|]. now apply IH.
    + intros H.
      rewrite (proj2 (matchFrom_nil_iff (Comment.content c)))
        by (apply H; now left).
      simpl. apply IH. intros c' Hc'. apply H. now right.
Qed.

Lemma extractHashtags_nil_iff (cs : list Comment.t) :
  extractHashtags cs = [] <-> scannedTags cs = [].
Proof.
  rewrite extractHashtags_ranked. split.
  - intros E. apply map_eq_nil in E.
    destruct (sort byCountDesc (tally (scannedTags cs))) as [|e l] eqn:Es;
      [|discriminate].
    pose proof (sort_perm byCountDesc (tally (scannedTags cs))) as P.
    rewrite Es in P. apply Permutation_nil in P.
    unfold tally in P. apply map_eq_nil in P.
    destruct (scannedTags cs); [reflexivity | discriminate].
  - intros ->. reflexivity.
Qed.

(** C5. The tokens of a content are the hashtags the expression matches
    ([#] and one or more ASCII letters, digits or underscores of either
    case, leftmost and longest first), and the scan finds exactly them.
    For every comment list: each scanned tag is lowered; the result is the
    first 4 entries of a ranking that holds every distinct tag once with
    the number of its occurrences over all comments, sorted by count from
    high to low, with tags of equal count in the order they were first met;
    the result is empty exactly when no content contains a hashtag.  On
    comments with "#Design", "#design" and "#UI" the result is #design
    with 2 and #ui with 1. *)
Theorem extractHashtags_trending :
  (forall s ms, Tokens s ms <-> matchFrom 0 s = ms)
  /\ (forall cs,
       let tags := scannedTags cs in
       Forall loweredTag tags
       /\ (exists ranked,
             extractHashtags cs
             = map (fun e => mkTopic (fst e) (snd e)) (firstn 4 ranked)
             /\ Permutation ranked (tally tags)
             /\ NoDup (map fst ranked)
             /\ (forall t n,
                   In (t, n) ranked <->
                   In t tags /\ n = occurrences t tags)
             /\ StronglySorted countDesc ranked
             /\ forall n, withCount n ranked = withCount n (tally tags))
       /\ (extractHashtags cs = [] <->
           forall c, In c cs -> ~ containsHashtag (Comment.content c)))
  /\ extractHashtags
       [ commentOf (lit "We love #Design here");
         commentOf (lit "more #design, please");
         commentOf (lit "#UI") ]
     = [ mkTopic (lit "#design") 2; mkTopic (lit "#ui") 1 ].
Proof.
  split; [|split].
  - intros s ms. split; [apply Tokens_unique|].
    intros <-. apply Tokens_matchFrom.
  - intros cs. cbv zeta. split; [apply scannedTags_lowered|]. split.
    + exists (sort byCountDesc (tally (scannedTags cs))).
      split; [apply extractHashtags_ranked|].
      pose proof (sort_perm byCountDesc (tally (scannedTags cs))) as P.
      split; [exact P|].
      split; [rewrite P; apply tally_NoDup|].
      split; [intros t n; rewrite P; apply tally_In|].
      split; [apply sort_sorted|].
      intros n. apply sort_stable.
    + rewrite extractHashtags_nil_iff. apply scannedTags_nil_iff.
  - reflexivity.
Qed.

(** On the seed comments no tag occurs twice, so the three tags keep the
    order of the scan. *)
Lemma extractHashtags_seed (now1 now2 now3 : Z) :
  extractHashtags (seedComments now1 now2 now3)
  = [ mkTopic (lit "#buildinpublic") 1; mkTopic (lit "#design") 1;
      mkTopic (lit "#ui") 1 ].
Proof. reflexivity. Qed.

(** With five distinct tags the fifth is cut, and a tag met later but
    counted more often moves to the front. *)
Lemma extractHashtags_top4 :
  extractHashtags
    [ commentOf (lit "#a #b #c");
      commentOf (lit "#d #e #C #e") ]
  = [ mkTopic (lit "#c") 2; mkTopic (lit "#e") 2;
      mkTopic (lit "#a") 1; mkTopic (lit "#b") 1 ].
Proof. reflexivity. Qed.

(** * Further properties of the component *)

(** ** [trim] and the handle filter *)

Lemma dropWhile_head {A} (p : A -> bool) (l : list A) :
  match dropWhile p l with
  | [] => True
  | x :: _ => p x = false
  end.
Proof.
  induction l as [|x l IH]; simpl; [exact I|].
  destruct (p x) eqn:E; simpl; assumption.
Qed.

Lemma dropWhile_fixed {A} (p : A -> bool) (l : list A) :
  match l with [] => True | x :: _ => p x = false end ->
  dropWhile p l = l.
Proof. destruct l as [|x l]; simpl; [reflexivity|]. now intros ->. Qed.

Lemma dropWhile_idem {A} (p : A -> bool) (l : list A) :
  dropWhile p (dropWhile p l) = dropWhile p l.
Proof. apply dropWhile_fixed, dropWhile_head. Qed.

Lemma dropWhile_snoc {A} (p : A -> bool) (l : list A) (a : A) :
  p a = false -> dropWhile p (l ++ [a]) = dropWhile p l ++ [a].
Proof.
  intros Ha. induction l as [|x l IH]; simpl; [now rewrite Ha|].
  now destruct (p x).
Qed.

Lemma trimEnd_cons (a : code_unit) (s : jsstring) :
  isWhiteSpace a = false -> trimEnd (a :: s) = a :: trimEnd s.
Proof.
  intros Ha. unfold trimEnd. simpl rev.
  rewrite dropWhile_snoc by assumption.
  now rewrite rev_app_distr.
Qed.

Lemma trimEnd_idem (s : jsstring) : trimEnd (trimEnd s) = trimEnd s.
Proof. unfold trimEnd. now rewrite rev_involutive, dropWhile_idem. Qed.

Lemma trim_idem (s : jsstring) : trim (trim s) = trim s.
Proof.
  unfold trim, trimStart.
  pose proof (dropWhile_head isWhiteSpace s) as Hh.
  destruct (dropWhile isWhiteSpace s) as [|a u]; [reflexivity|].
  rewrite (trimEnd_cons a u Hh). simpl. rewrite Hh.
  rewrite (trimEnd_cons a _ Hh). now rewrite trimEnd_idem.
Qed.

Lemma trim_length (s : jsstring) : length_ (trim s) <= length_ s.
Proof.
  unfold trim, trimEnd, trimStart, length_.
  rewrite length_rev.
  pose proof (dropWhile_length isWhiteSpace (rev (dropWhile isWhiteSpace s))).
  pose proof (dropWhile_length isWhiteSpace s).
  rewrite length_rev in *. lia.
Qed.

Lemma trim_noWhiteSpace (s : jsstring) : noWhiteSpace s -> trim s = s.
Proof.
  intros H. unfold trim, trimStart, trimEnd.
  rewrite (dropWhile_fixed isWhiteSpace s) by (destruct H; trivial).
  rewrite (dropWhile_fixed isWhiteSpace (rev s)).
  - apply rev_involutive.
  - apply Forall_rev in H. destruct H; trivial.
Qed.

Lemma replace_whitespace_noWhiteSpace (s : jsstring) :
  noWhiteSpace (replace_whitespace s).
Proof.
  apply Forall_forall. intros c Hc.
  apply filter_In in Hc as [_ Hc]. now apply negb_true_iff.
Qed.

Lemma replace_whitespace_fixed (s : jsstring) :
  noWhiteSpace s -> replace_whitespace s = s.
Proof.
  intros H. apply forallb_filter_id, forallb_forall.
  unfold noWhiteSpace in H. rewrite Forall_forall in H.
  intros c Hc. now rewrite (H c Hc).
Qed.

(** ** The draft *)

(** X1. The field-edit command for the handle stores the value with every
    white space code unit removed: the stored handle holds none, trimming
    it changes nothing, a value without white space is stored as it is, and
    sending the stored handle again stores the same handle. *)
Theorem editField_username_strips (value : jsstring) (st : State) :
  let stored st' := FormState.username (formState st') in
  let st1 := editField Field.username value st in
  stored st1 = replace_whitespace value
  /\ noWhiteSpace (stored st1)
  /\ trim (stored st1) = stored st1
  /\ (noWhiteSpace value -> stored st1 = value)
  /\ stored (editField Field.username (stored st1) st1) = stored st1.
Proof.
  cbv zeta. cbn [editField onChange_username handleFieldChange formState
                 setField FormState.username].
  pose proof (replace_whitespace_noWhiteSpace value) as H.
  split; [reflexivity|]. split; [exact H|].
  split; [now apply trim_noWhiteSpace|].
  split; [apply replace_whitespace_fixed|].
  now apply replace_whitespace_fixed.
Qed.

Lemma editField_username_strips_witness :
  FormState.username
    (formState
       (editField Field.username (lit " @jo rdy ") (initialState 0 0 0)))
  = lit "@jordy".
Proof.
  destruct (editField_username_strips (lit " @jo rdy ") (initialState 0 0 0))
    as (H & _).
  exact H.
Defined.

(** X2. A field edit writes the named draft field and nothing else: the
    comments and the submitting flag stay, the two other draft fields stay,
    and a display name is stored exactly as given (white space included). *)
Theorem editField_frame (field : Field.t) (value : jsstring) (st : State) :
  let st' := editField field value st in
  comments st' = comments st
  /\ isSubmitting st' = isSubmitting st
  /\ (field <> Field.displayName ->
      FormState.displayName (formState st')
      = FormState.displayName (formState st))
  /\ (field <> Field.username ->
      FormState.username (formState st') = FormState.username (formState st))
  /\ (field <> Field.content ->
      FormState.content (formState st') = FormState.content (formState st))
  /\ (field = Field.displayName ->
      FormState.displayName (formState st') = value).
Proof.
  cbv zeta. destruct field; cbn; repeat split; intros H;
    try reflexivity; congruence.
Qed.

(** ** What every reachable state satisfies *)

Lemma at_noWhiteSpace (u : jsstring) :
  noWhiteSpace u -> noWhiteSpace (lit "@" ++ u).
Proof. intros H. constructor; [reflexivity | exact H]. Qed.

Lemma editField_draftOk (field : Field.t) (value : jsstring) (st : State) :
  draftOk (formState st) -> draftOk (formState (editField field value st)).
Proof.
  intros [Hc Hu]. destruct field; unfold draftOk;
    cbn [editField onChange_displayName onChange_username onChange_content
         handleFieldChange formState setField FormState.username
         FormState.content].
  - now split.
  - split; [assumption | apply replace_whitespace_noWhiteSpace].
  - split; [|assumption].
    rewrite slice_from_0 by (unfold MAX_CHAR_COUNT; lia).
    unfold length_, MAX_CHAR_COUNT.
    pose proof (firstn_le_length (Z.to_nat 280) value). lia.
Qed.

Lemma toggleComment_commentOk (commentId : jsstring) (c : Comment.t) :
  commentOk c -> commentOk (toggleComment commentId c).
Proof.
  unfold commentOk.
  destruct (toggleComment_frame commentId c) as (_ & -> & -> & _ & -> & _).
  trivial.
Qed.

Lemma seedComments_commentOk (now1 now2 now3 : Z) :
  Forall commentOk (seedComments now1 now2 now3).
Proof.
  unfold seedComments, commentOk, noWhiteSpace.
  repeat constructor; try discriminate; vm_compute; congruence.
Qed.

Lemma handleSubmit_wellformed (uuid : jsstring) (now : Z) (st : State) :
  draftOk (formState st) /\ Forall commentOk (comments st) ->
  draftOk (formState (handleSubmit uuid now st))
  /\ Forall commentOk (comments (handleSubmit uuid now st)).
Proof.
  intros [[Hlen Hws] Hcs]. unfold handleSubmit.
  destruct (not_ (trim (FormState.displayName (formState st)))) eqn:Ed;
    [now repeat split|].
  destruct (not_ (trim (FormState.username (formState st)))) eqn:Eu;
    [now repeat split|].
  destruct (not_ (trim (FormState.content (formState st)))) eqn:Ec;
    [now repeat split|].
  cbn [orb formState comments]. split.
  - split; [unfold MAX_CHAR_COUNT; cbn; lia | constructor].
  - constructor; [|assumption].
    apply not_false_iff in Ed, Ec.
    unfold commentOk. cbn [Comment.username Comment.displayName Comment.content].
    repeat split; trivial; try apply trim_idem.
    + destruct (startsWith (lit "@") (FormState.username (formState st)))
        eqn:E; [exact E | reflexivity].
    + destruct (startsWith (lit "@") (FormState.username (formState st)));
        [assumption | now apply at_noWhiteSpace].
    + pose proof (trim_length (FormState.content (formState st))). lia.
Qed.

Lemma run_wellformed (st : State) (cmd : Command) :
  draftOk (formState st) /\ Forall commentOk (comments st) ->
  draftOk (formState (run st cmd))
  /\ Forall commentOk (comments (run st cmd)).
Proof.
  intros H. destruct cmd as [field value|uuid now|commentId|]; cbn [run].
  - split; [apply editField_draftOk, H|].
    destruct field; apply H.
  - now apply handleSubmit_wellformed.
  - split; [apply H|]. cbn [toggleLike comments].
    apply Forall_map. destruct H as [_ H]. revert H. apply Forall_impl.
    intros c. apply toggleComment_commentOk.
  - exact H.
Qed.

Lemma reachable_wellformed (st : State) :
  reachable st ->
  draftOk (formState st) /\ Forall commentOk (comments st).
Proof.
  induction 1 as [now1 now2 now3|st cmd _ IH].
  - split; [|apply seedComments_commentOk].
    split; [unfold MAX_CHAR_COUNT; cbn; lia | constructor].
  - now apply run_wellformed.
Qed.

(** X3. In every reachable state the draft content has at most 280 code
    units, so the counter of characters left is between 0 and 280 and
    never negative, and the draft handle holds no white space. *)
Theorem reachable_draft_bounds (st : State) :
  reachable st ->
  0 <= charCount st <= MAX_CHAR_COUNT
  /\ 0 <= charLeft st <= MAX_CHAR_COUNT
  /\ (charLeft st <? 0) = false
  /\ noWhiteSpace (FormState.username (formState st)).
Proof.
  intros H. apply reachable_wellformed in H as [[Hlen Hws] _].
  unfold charLeft, charCount, length_, MAX_CHAR_COUNT in *.
  repeat split; trivial; lia.
Qed.

Lemma reachable_draft_bounds_witness :
  let st :=
    runAll (initialState 0 0 0)
      [ EditField Field.content (repeat 97%N 300);
        EditField Field.username (lit "a b") ] in
  charLeft st = 0
  /\ noWhiteSpace (FormState.username (formState st)).
Proof.
  cbv zeta.
  destruct (reachable_draft_bounds
              (runAll (initialState 0 0 0)
                 [ EditField Field.content (repeat 97%N 300);
                   EditField Field.username (lit "a b") ])
              (reachable_runAll 0 0 0 _))
    as (_ & _ & _ & H).
  split; [reflexivity | exact H].
Defined.

(** X4. In every reachable state every comment has a handle that starts
    with [@] and holds no white space, a display name and a content that
    are non-empty and carry no white space at either end, and a content of
    at most 280 code units. *)
Theorem reachable_comments_wellformed (st : State) :
  reachable st -> Forall commentOk (comments st).
Proof. intros H. now apply reachable_wellformed in H. Qed.

Lemma reachable_comments_wellformed_witness :
  Forall commentOk
    (comments
       (runAll (initialState 0 0 0)
          [ EditField Field.displayName (lit "  Jo  ");
            EditField Field.username (lit " jo ");
            EditField Field.content (lit " hello #rocq ");
            Submit (lit "u1") 5 ])).
Proof.
  apply (reachable_comments_wellformed
           (runAll (initialState 0 0 0)
              [ EditField Field.displayName (lit "  Jo  ");
                EditField Field.username (lit " jo ");
                EditField Field.content (lit " hello #rocq ");
                Submit (lit "u1") 5 ])).
  apply reachable_runAll.
Defined.

(** ** The submit button and [handleSubmit] *)

Lemma submitDisabled_false (st : State) :
  submitDisabled st = false <->
  FormState.content (formState st) <> []
  /\ length_ (FormState.content (formState st)) <= MAX_CHAR_COUNT
  /\ isSubmitting st = false
  /\ trim (FormState.displayName (formState st)) <> []
  /\ trim (FormState.username (formState st)) <> [].
Proof.
  unfold submitDisabled. rewrite !orb_false_iff, !not_false_iff.
  rewrite Z.eqb_neq, Z.ltb_ge. unfold length_.
  assert (E : Z.of_nat (List.length (FormState.content (formState st))) <> 0
              <-> FormState.content (formState st) <> []).
  { destruct (FormState.content (formState st)); simpl; split;
      try congruence; lia. }
  rewrite E. unfold MAX_CHAR_COUNT. intuition lia.
Qed.

(** X5. The button tests that the content is non-empty, the handler that it
    is non-empty after trimming.  So with the button enabled [handleSubmit]
    posts exactly when the trimmed content is non-empty; with a content of
    white space only the button is enabled and the submission changes
    nothing. *)
Theorem submit_enabled_posts_iff (uuid : jsstring) (now : Z) (st : State) :
  submitDisabled st = false ->
  (trim (FormState.content (formState st)) <> [] ->
   exists c, comments (handleSubmit uuid now st) = c :: comments st)
  /\ (trim (FormState.content (formState st)) = [] ->
      handleSubmit uuid now st = st
      /\ FormState.content (formState st) <> []).
Proof.
  intros H. apply submitDisabled_false in H as (Hc & _ & _ & Hd & Hu).
  apply not_false_iff in Hd, Hu. unfold handleSubmit. rewrite Hd, Hu.
  cbn [orb]. split; intros Ht.
  - apply not_false_iff in Ht. rewrite Ht. eexists. reflexivity.
  - apply not_true_iff in Ht. rewrite Ht. now split.
Qed.

Lemma submit_enabled_posts_iff_witness :
  let st :=
    mkState (seedComments 0 0 0)
      (FormState.mk (lit "Jo") (lit "jo") (lit "   ")) false in
  submitDisabled st = false /\ handleSubmit (lit "u1") 7 st = st.
Proof.
  cbv zeta. split; [reflexivity|].
  apply (submit_enabled_posts_iff (lit "u1") 7
           (mkState (seedComments 0 0 0)
              (FormState.mk (lit "Jo") (lit "jo") (lit "   ")) false)
           eq_refl).
  reflexivity.
Defined.

(** X6. Whenever [handleSubmit] would post (the three fields non-empty
    after trimming), nothing is being submitted and the content has at most
    280 code units, the button is enabled. *)
Theorem submit_valid_enabled (st : State) :
  trim (FormState.displayName (formState st)) <> [] ->
  trim (FormState.username (formState st)) <> [] ->
  trim (FormState.content (formState st)) <> [] ->
  isSubmitting st = false ->
  length_ (FormState.content (formState st)) <= MAX_CHAR_COUNT ->
  submitDisabled st = false.
Proof.
  intros Hd Hu Hc Hs Hl. apply submitDisabled_false.
  repeat split; trivial. intros E. rewrite E in Hc. now apply Hc.
Qed.

Lemma submit_valid_enabled_witness :
  submitDisabled
    (mkState (seedComments 0 0 0)
       (FormState.mk (lit "Jo") (lit "jo") (lit "hi")) false) = false.
Proof.
  apply (submit_valid_enabled
           (mkState (seedComments 0 0 0)
              (FormState.mk (lit "Jo") (lit "jo") (lit "hi")) false));
    try (vm_compute; congruence); reflexivity.
Defined.

(** X7. After a submission that posts, the flag is set and the button is
    disabled; when the timer has cleared the flag the button is still
    disabled, because the draft is empty, until a field is edited. *)
Theorem submit_then_disabled (uuid : jsstring) (now : Z) (st : State) :
  trim (FormState.displayName (formState st)) <> [] ->
  trim (FormState.username (formState st)) <> [] ->
  trim (FormState.content (formState st)) <> [] ->
  let st1 := handleSubmit uuid now st in
  isSubmitting st1 = true
  /\ submitDisabled st1 = true
  /\ isSubmitting (submitTimer st1) = false
  /\ submitDisabled (submitTimer st1) = true
  /\ comments (submitTimer st1) = comments st1.
Proof.
  intros Hd Hu Hc. apply not_false_iff in Hd, Hu, Hc.
  cbv zeta. unfold handleSubmit. rewrite Hd, Hu, Hc. cbn [orb].
  repeat split.
Qed.

Lemma submit_then_disabled_witness :
  let st :=
    mkState (seedComments 0 0 0)
      (FormState.mk (lit "Jo") (lit "jo") (lit "hi")) false in
  submitDisabled (handleSubmit (lit "u1") 7 st) = true
  /\ submitDisabled (submitTimer (handleSubmit (lit "u1") 7 st)) = true.
Proof.
  cbv zeta.
  destruct (submit_then_disabled (lit "u1") 7
              (mkState (seedComments 0 0 0)
                 (FormState.mk (lit "Jo") (lit "jo") (lit "hi")) false))
    as (_ & H1 & _ & H2 & _); try (vm_compute; congruence).
  now split.
Defined.

(** ** The comment sequence over time *)

Lemma run_history (st : State) (cmd : Command) :
  exists added,
    map frozen (comments (run st cmd)) = added ++ map frozen (comments st)
    /\ (List.length added <= if isSubmit cmd then 1 else 0)%nat.
Proof.
  destruct cmd as [field value|uuid now|commentId|]; cbn [run isSubmit].
  - exists []. split; [now destruct field | simpl; lia].
  - unfold handleSubmit.
    destruct (_ || _); [exists []; split; [reflexivity | simpl; lia]|].
    destruct (not_ _); [exists []; split; [reflexivity | simpl; lia]|].
    eexists [_]. split; [reflexivity | simpl; lia].
  - exists []. split; [|simpl; lia].
    cbn [toggleLike comments app]. rewrite map_map. apply map_ext.
    intros c. unfold frozen.
    destruct (toggleComment_frame commentId c)
      as (-> & -> & -> & -> & -> & -> & ->).
    reflexivity.
  - exists []. split; [reflexivity | simpl; lia].
Qed.

(** X8. No command removes, reorders or rewrites a comment: after any run
    of commands the old comments are the tail of the sequence, in the old
    order, with id, display name, handle, avatar colour, content, creation
    time and reply count as before; in front of them stands at most one
    new comment per submission. *)
Theorem runAll_history (cmds : list Command) (st : State) :
  exists added,
    map frozen (comments (runAll st cmds))
    = added ++ map frozen (comments st)
    /\ (List.length added <= List.length (filter isSubmit cmds))%nat.
Proof.
  revert st. induction cmds as [|cmd cmds IH]; intros st.
  - exists []. split; [reflexivity | simpl; lia].
  - unfold runAll in *. cbn [fold_left].
    destruct (IH (run st cmd)) as (a2 & E2 & L2).
    destruct (run_history st cmd) as (a1 & E1 & L1).
    exists (a2 ++ a1). rewrite E2, E1, app_assoc. split; [reflexivity|].
    rewrite length_app. cbn [filter].
    destruct (isSubmit cmd); simpl in *; lia.
Qed.

(** ** More on [toggleLike] *)

Lemma toggleComment_comm (a b : jsstring) (c : Comment.t) :
  toggleComment a (toggleComment b c) = toggleComment b (toggleComment a c).
Proof.
  destruct (jsstring_eq_dec a b) as [->|Hab]; [reflexivity|].
  destruct (jsstring_eq_dec (Comment.id c) a) as [Ea|Ea].
  - assert (Eb : Comment.id c <> b) by congruence.
    rewrite (toggleComment_other b c Eb).
    symmetry. apply toggleComment_other. now rewrite toggleComment_id.
  - rewrite (toggleComment_other a c Ea).
    apply toggleComment_other. now rewrite toggleComment_id.
Qed.

(** X9. Like toggles commute: toggling two ids in either order gives the
    same state. *)
Theorem toggleLike_comm (a b : jsstring) (st : State) :
  toggleLike a (toggleLike b st) = toggleLike b (toggleLike a st).
Proof.
  unfold toggleLike. cbn [comments formState isSubmitting]. f_equal.
  rewrite !map_map. apply map_ext. intros c. apply toggleComment_comm.
Qed.

(** X10. In every reachable state the like flag of each comment is present
    and a comment liked by the viewer has at least one like. *)
Theorem reachable_liked_has_like (st : State) :
  reachable st ->
  Forall
    (fun c =>
       Comment.isLiked c <> None
       /\ (likedByViewer c = true -> 1 <= Comment.likes c))
    (comments st).
Proof.
  intros H. apply reachable_consistent in H. revert H.
  apply Forall_impl. intros c (_ & Hd & H1). split; [exact Hd|].
  unfold likedByViewer. destruct (Comment.isLiked c) as [[|]|];
    try discriminate. intros _. now apply H1.
Qed.

Lemma reachable_liked_has_like_witness :
  Forall
    (fun c =>
       Comment.isLiked c <> None
       /\ (likedByViewer c = true -> 1 <= Comment.likes c))
    (comments
       (runAll (initialState 0 0 0)
          [ ToggleLike (lit "c3"); ToggleLike (lit "c1");
            ToggleLike (lit "c3") ])).
Proof.
  apply (reachable_liked_has_like
           (runAll (initialState 0 0 0)
              [ ToggleLike (lit "c3"); ToggleLike (lit "c1");
                ToggleLike (lit "c3") ])).
  apply reachable_runAll.
Defined.

(** ** More on [interactionsToday] *)

Lemma interactionsToday_cons (c : Comment.t) (cs : list Comment.t) :
  interactionsToday (c :: cs)
  = Comment.likes c + Comment.replies c + interactionsToday cs.
Proof.
  unfold interactionsToday. cbn [fold_left].
  rewrite !interactionsToday_fold. lia.
Qed.

Lemma interactionsToday_toggle (commentId : jsstring) (cs : list Comment.t) :
  interactionsToday (map (toggleComment commentId) cs)
  = interactionsToday cs + sumZ (map (likeDelta commentId) cs).
Proof.
  induction cs as [|c cs IH]; [reflexivity|].
  cbn [map]. rewrite !interactionsToday_cons, IH.
  change (sumZ (likeDelta commentId c :: map (likeDelta commentId) cs))
    with (likeDelta commentId c + sumZ (map (likeDelta commentId) cs)).
  assert (E : Comment.likes (toggleComment commentId c)
              + Comment.replies (toggleComment commentId c)
              = Comment.likes c + Comment.replies c + likeDelta commentId c).
  { unfold toggleComment, likeDelta.
    destruct (eqb (Comment.id c) commentId); simpl; [|lia].
    destruct (notLiked c); lia. }
  lia.
Qed.

(** X11. Only a like toggle moves the interaction total: a field edit, a
    submission (the new comment has 0 likes and 0 replies) and the timer
    leave it as it is, and a toggle adds 1 for every comment with that id
    that was not liked and takes 1 for every one that was. *)
Theorem interactionsToday_run (st : State) (cmd : Command) :
  interactionsToday (comments (run st cmd))
  = interactionsToday (comments st)
    + match cmd with
      | ToggleLike commentId => sumZ (map (likeDelta commentId) (comments st))
      | _ => 0
      end.
Proof.
  destruct cmd as [field value|uuid now|commentId|]; cbn [run].
  - destruct field; symmetry; apply Z.add_0_r.
  - unfold handleSubmit.
    destruct (_ || _); [lia|]. destruct (not_ _); [lia|].
    cbn [comments]. rewrite interactionsToday_cons.
    cbn [Comment.likes Comment.replies]. lia.
  - apply interactionsToday_toggle.
  - symmetry. apply Z.add_0_r.
Qed.

(** X12, at a concrete state: the state-level round trip of two toggles
    ([toggleLike_twice_reachable]) after one toggle of a seed comment. *)
Lemma toggleLike_twice_reachable_witness :
  let st := runAll (initialState 0 0 0) [ ToggleLike (lit "c2") ] in
  toggleLike (lit "c2") (toggleLike (lit "c2") st) = st.
Proof.
  cbv zeta.
  apply (toggleLike_twice_reachable (lit "c2")
           (runAll (initialState 0 0 0) [ ToggleLike (lit "c2") ])).
  apply reachable_runAll.
Defined.

(** ** More on [extractHashtags] *)

Lemma scannedTags_cons (c : Comment.t) (cs : list Comment.t) :
  scannedTags (c :: cs)
  = map toLowerCase (matchFrom 0 (Comment.content c)) ++ scannedTags cs.
Proof. reflexivity. Qed.

Lemma scannedTags_contents (cs cs' : list Comment.t) :
  map Comment.content cs = map Comment.content cs' ->
  scannedTags cs = scannedTags cs'.
Proof.
  revert cs'. induction cs as [|c cs IH]; intros [|c' cs'] E;
    try discriminate; [reflexivity|].
  injection E as Ec E. rewrite !scannedTags_cons, Ec. f_equal. now apply IH.
Qed.

Lemma extractHashtags_scanned (cs cs' : list Comment.t) :
  scannedTags cs = scannedTags cs' ->
  extractHashtags cs = extractHashtags cs'.
Proof. intros E. now rewrite !extractHashtags_ranked, E. Qed.

Lemma toggle_contents (commentId : jsstring) (cs : list Comment.t) :
  map Comment.content (map (toggleComment commentId) cs)
  = map Comment.content cs.
Proof.
  rewrite map_map. apply map_ext. intros c.
  now destruct (toggleComment_frame commentId c) as (_ & _ & _ & _ & -> & _).
Qed.

(** X13. The trending list reads the contents only.  A like toggle, a
    field edit and the timer never change it, and neither does a
    submission whose trimmed content holds no hashtag. *)
Theorem extractHashtags_run (st : State) (cmd : Command) :
  match cmd with
  | Submit _ _ =>
      ~ containsHashtag (trim (FormState.content (formState st)))
  | _ => True
  end ->
  extractHashtags (comments (run st cmd)) = extractHashtags (comments st).
Proof.
  intros H. destruct cmd as [field value|uuid now|commentId|]; cbn [run].
  - now destruct field.
  - unfold handleSubmit.
    destruct (_ || _); [reflexivity|]. destruct (not_ _); [reflexivity|].
    cbn [comments]. apply extractHashtags_scanned.
    rewrite scannedTags_cons. cbn [Comment.content].
    now rewrite (matchFrom_none _ H).
  - apply extractHashtags_scanned, scannedTags_contents.
    cbn [toggleLike comments]. apply toggle_contents.
  - reflexivity.
Qed.

Lemma extractHashtags_run_witness :
  let st :=
    mkState (seedComments 0 0 0)
      (FormState.mk (lit "Jo") (lit "jo") (lit "no tags # here ")) false in
  extractHashtags (comments (run st (Submit (lit "u1") 7)))
  = extractHashtags (comments st).
Proof.
  cbv zeta.
  apply (extractHashtags_run
           (mkState (seedComments 0 0 0)
              (FormState.mk (lit "Jo") (lit "jo") (lit "no tags # here "))
              false)
           (Submit (lit "u1") 7)).
  apply matchFrom_nil_iff. reflexivity.
Defined.

Lemma firstn_incl {A} (n : nat) (l : list A) (x : A) :
  In x (firstn n l) -> In x l.
Proof.
  intros H. rewrite <- (firstn_skipn n l). apply in_or_app. now left.
Qed.

Lemma firstn_NoDup {A} (n : nat) (l : list A) :
  NoDup l -> NoDup (firstn n l).
Proof.
  intros H. rewrite <- (firstn_skipn n l) in H.
  now apply NoDup_app_remove_r in H.
Qed.

(** X14. The trending list has at most four entries, no tag twice, and
    every entry is a lowered tag with a count of at least 1 that is the
    number of its occurrences in the scan. *)
Theorem extractHashtags_shape (cs : list Comment.t) :
  (List.length (extractHashtags cs) <= 4)%nat
  /\ NoDup (map tag (extractHashtags cs))
  /\ Forall
       (fun t =>
          loweredTag (tag t)
          /\ 1 <= count t
          /\ count t = occurrences (tag t) (scannedTags cs))
       (extractHashtags cs).
Proof.
  rewrite extractHashtags_ranked.
  set (ranked := sort byCountDesc (tally (scannedTags cs))).
  pose proof (sort_perm byCountDesc (tally (scannedTags cs))) as P.
  fold ranked in P.
  split; [rewrite length_map; apply firstn_le_length|]. split.
  - rewrite map_map. cbn [tag]. rewrite <- firstn_map.
    apply firstn_NoDup. rewrite P. apply tally_NoDup.
  - apply Forall_map, Forall_forall. intros [t n] Hin. cbn [tag count fst snd].
    apply firstn_incl in Hin. rewrite P in Hin.
    apply tally_In in Hin as [Ht ->].
    split; [|split; [now apply occurrences_pos | reflexivity]].
    pose proof (scannedTags_lowered cs) as Hl.
    rewrite Forall_forall in Hl. now apply Hl.
Qed.

Lemma Map_set_sum (t : jsstring) (v : Z) (m : Map) :
  sumZ (map snd (Map_set t v m))
  = sumZ (map snd m) + v
    - match Map_get t m with Some n => n | None => 0 end.
Proof.
  induction m as [|[k n] m IH]; simpl; [unfold sumZ; simpl; lia|].
  destruct (eqb k t); unfold sumZ in *; simpl in *; lia.
Qed.

Lemma fold_bump_sum (tags : list jsstring) (m : Map) :
  sumZ (map snd (fold_left bump tags m))
  = sumZ (map snd m) + length_ tags.
Proof.
  revert m. induction tags as [|t tags IH]; intros m; simpl.
  - unfold length_; simpl; lia.
  - rewrite IH. unfold bump. rewrite Map_set_sum.
    unfold length_. simpl List.length. lia.
Qed.

Lemma sumZ_perm (l l' : list Z) : Permutation l l' -> sumZ l = sumZ l'.
Proof.
  induction 1; unfold sumZ in *; simpl; lia.
Qed.

Lemma sumZ_firstn (n : nat) (l : list Z) :
  Forall (fun x => 0 <= x) l -> sumZ (firstn n l) <= sumZ l.
Proof.
  intros H. revert n. induction H as [|x l Hx _ IH]; intros [|n]; simpl;
    unfold sumZ in *; simpl; try lia.
  - assert (0 <= fold_right Z.add 0 l); [|lia].
    specialize (IH 0%nat). simpl in IH. exact IH.
  - specialize (IH n). lia.
Qed.

(** X15. No occurrence is counted twice: the counts of the trending list
    add up to at most the number of hashtag matches over all comments, and
    to exactly that number when there are at most four distinct tags. *)
Theorem extractHashtags_count_total (cs : list Comment.t) :
  sumZ (map count (extractHashtags cs)) <= length_ (scannedTags cs)
  /\ ((List.length (firstSeen (scannedTags cs)) <= 4)%nat ->
      sumZ (map count (extractHashtags cs)) = length_ (scannedTags cs)).
Proof.
  rewrite extractHashtags_ranked.
  set (ranked := sort byCountDesc (tally (scannedTags cs))).
  pose proof (sort_perm byCountDesc (tally (scannedTags cs))) as P.
  fold ranked in P.
  assert (Et : sumZ (map snd ranked) = length_ (scannedTags cs)).
  { rewrite (sumZ_perm _ _ (Permutation_map snd P)).
    rewrite <- fold_bump_tally, fold_bump_sum. unfold sumZ; simpl; lia. }
  rewrite map_map. cbn [count]. rewrite <- firstn_map. split.
  - rewrite <- Et. apply sumZ_firstn.
    apply Forall_map, Forall_forall. intros [t n] Hin. cbn [snd].
    rewrite P in Hin. apply tally_In in Hin as [Ht ->].
    apply occurrences_pos in Ht. lia.
  - intros Hn. rewrite firstn_all2; [exact Et|].
    rewrite length_map, (Permutation_length P).
    unfold tally. now rewrite length_map.
Qed.

Lemma extractHashtags_count_total_witness :
  sumZ (map count (extractHashtags (seedComments 0 0 0))) = 3.
Proof.
  destruct (extractHashtags_count_total (seedComments 0 0 0)) as [_ H].
  rewrite H; [reflexivity | vm_compute; lia].
Defined.

(** ** More on the hashtag expression *)

Lemma Tokens_lengths (s : jsstring) (ms : list jsstring) :
  Tokens s ms ->
  (List.length (List.concat ms) <= List.length s)%nat
  /\ Forall (fun m => (2 <= List.length m)%nat) ms.
Proof.
  induction 1 as [s _|pre run post ms _ Hrun _ _ _ [IH1 IH2]]; simpl.
  - split; [lia | constructor].
  - split.
    + rewrite !length_app. simpl. rewrite !length_app. lia.
    + constructor; [|assumption].
      destruct run; [congruence | simpl; lia].
Qed.

(** X16. The matches of a content do not overlap and each has at least two
    code units: their lengths add up to at most the length of the content,
    so a content of n code units has at most n/2 matches; and the match
    call gives [null] exactly when the content contains no hashtag. *)
Theorem matchFrom_lengths (s : jsstring) :
  let ms := matchFrom 0 s in
  (List.length (List.concat ms) <= List.length s)%nat
  /\ Forall (fun m => (2 <= List.length m)%nat) ms
  /\ (2 * List.length ms <= List.length s)%nat
  /\ (match_hashtagRegex s = None <-> ~ containsHashtag s)
  /\ (forall l, match_hashtagRegex s = Some l -> l = ms /\ l <> []).
Proof.
  cbv zeta.
  destruct (Tokens_lengths s _ (Tokens_matchFrom s)) as [H1 H2].
  split; [exact H1|]. split; [exact H2|]. split; [|split].
  - assert (G : (2 * List.length (matchFrom 0 s)
                 <= List.length (List.concat (matchFrom 0 s)))%nat).
    { clear H1. induction H2 as [|m ms Hm _ IH]; simpl; [lia|].
      rewrite length_app. lia. }
    lia.
  - rewrite <- matchFrom_nil_iff. unfold match_hashtagRegex.
    destruct (matchFrom 0 s); split; congruence.
  - intros l. unfold match_hashtagRegex.
    destruct (matchFrom 0 s); intros E; [discriminate|].
    injection E as <-. split; [reflexivity | discriminate].
Qed.

(** ** More on [relativeTimeFromNow] *)

(** X17. The label over the whole range of elapsed times, as the code
    computes it.  A timestamp in the future or less than a minute old gives
    "just now"; then come 1 to 59 minutes, 1 to 23 hours, 1 to 6 days,
    1 to 4 weeks (up to 34 days), 1 to 11 months of 30 days (up to 359
    days), and from 360 days on the years of 365 days, which are 0 from
    360 to 364 days. *)
Theorem relativeTimeFromNow_ranges (now isoDate : Z) :
  let d := now - isoDate in
  let days := d / 86400000 in
  let r := relativeTimeFromNow now isoDate in
  (d < 60000 -> r = lit "just now")
  /\ (60000 <= d < 3600000 ->
      r = Number_toString (d / 60000) ++ lit "m" /\ 1 <= d / 60000 <= 59)
  /\ (3600000 <= d < 86400000 ->
      r = Number_toString (d / 3600000) ++ lit "h"
      /\ 1 <= d / 3600000 <= 23)
  /\ (1 <= days < 7 -> r = Number_toString days ++ lit "d")
  /\ (7 <= days < 35 ->
      r = Number_toString (days / 7) ++ lit "w" /\ 1 <= days / 7 <= 4)
  /\ (35 <= days < 360 ->
      r = Number_toString (days / 30) ++ lit "mo" /\ 1 <= days / 30 <= 11)
  /\ (360 <= days ->
      r = Number_toString (days / 365) ++ lit "y"
      /\ 0 <= days / 365
      /\ (days / 365 = 0 <-> days < 365)).
Proof.
  cbv zeta.
  destruct (relativeTimeFromNow_cases now isoDate)
    as (H1 & H2 & H3 & H4 & H5 & H6 & H7).
  split; [exact H1|].
  split; [intros H; split; [now apply H2 | Z.div_mod_to_equations; lia]|].
  split; [intros H; split; [now apply H3 | Z.div_mod_to_equations; lia]|].
  split; [exact H4|].
  split; [intros H; split; [now apply H5 | Z.div_mod_to_equations; lia]|].
  split; [intros H; split; [now apply H6 | Z.div_mod_to_equations; lia]|].
  intros H. split; [now apply H7|].
  split; [|split; intros]; Z.div_mod_to_equations; lia.
Qed.

Lemma relativeTimeFromNow_ranges_witness :
  relativeTimeFromNow 0 5000 = lit "just now"
  /\ relativeTimeFromNow (40 * 86400000) 0 = lit "1mo".
Proof.
  split.
  - apply (relativeTimeFromNow_ranges 0 5000). lia.
  - destruct (relativeTimeFromNow_ranges (40 * 86400000) 0)
      as (_ & _ & _ & _ & _ & H & _).
    destruct H as [H _]; [vm_compute; split; [discriminate | reflexivity]|].
    exact H.
Defined.
